(** * collie: the matrix factorization model

    A shallow embedding of [collie/model/matrix_factorization.py]:
    the tensors that [MatrixFactorizationModel._setup_model] allocates and
    the arithmetic of [MatrixFactorizationModel.forward].

    Tensor elements are read as real numbers, and the statements about the
    model are statements of exact real arithmetic.  Index tensors hold
    integers.  The output-range step is also given as the tensor library
    computes it, on float32 values with round-to-nearest-even, in the module
    [Float32]; the bound of the range is decided there. *)

From Stdlib Require Import Reals Lra ZArith List Bool Lia.
From Stdlib Require SpecFloat.
Import ListNotations.

Local Open Scope R_scope.

(** ** Results of a call: a value or a raised exception *)

Inductive error : Type :=
| IndexError      (* an index outside the table *)
| RuntimeError    (* shapes that cannot be broadcast together *)
| ValueError      (* a dropout probability outside [0, 1] *)
| Unmodelled.     (* a tensor rank this development does not represent *)

Inductive result (A : Type) : Type :=
| Ok (a : A)
| Raise (e : error).

Arguments Ok {A} a.
Arguments Raise {A} e.

Definition rbind {A B : Type} (r : result A) (k : A -> result B) : result B :=
  match r with
  | Ok a => k a
  | Raise e => Raise e
  end.

Fixpoint mapM {A B : Type} (f : A -> result B) (xs : list A) : result (list B) :=
  match xs with
  | [] => Ok []
  | x :: rest =>
      rbind (f x) (fun y => rbind (mapM f rest) (fun ys => Ok (y :: ys)))
  end.

Fixpoint sequence {A : Type} (rs : list (result A)) : result (list A) :=
  match rs with
  | [] => Ok []
  | r :: rest => rbind r (fun y => rbind (sequence rest) (fun ys => Ok (y :: ys)))
  end.

(** Pairing of two lists, position by position. *)
Fixpoint zip_with {A B C : Type} (f : A -> B -> C) (xs : list A) (ys : list B)
  : list C :=
  match xs, ys with
  | x :: xs', y :: ys' => f x y :: zip_with f xs' ys'
  | _, _ => []
  end.

(** Two tensors have the same shape: as many rows, and rows of equal width. *)
Definition same_shape {A B : Type} (a : list (list A)) (b : list (list B)) : Prop :=
  Forall2 (fun r r' => length r = length r') a b.

(** ** The source of randomness

    Dropout draws a Bernoulli sample per element.  The draws are an input of
    the model: a sequence of keep flags and the position of the next unread
    one.  Each draw advances the position, so two dropout calls in a row read
    disjoint stretches of the sequence. *)

Record rng : Type := mk_rng {
  draws : nat -> bool;
  pos : nat
}.

Definition next_draw (g : rng) : bool * rng :=
  (draws g (pos g), mk_rng (draws g) (S (pos g))).

Fixpoint sample_row (d : nat) (g : rng) : list bool * rng :=
  match d with
  | O => ([], g)
  | S d' =>
      let (b, g1) := next_draw g in
      let (bs, g2) := sample_row d' g1 in
      (b :: bs, g2)
  end.

(** A computation that may read draws and may raise. *)
Definition M (A : Type) : Type := rng -> result (A * rng).

Definition ret {A : Type} (a : A) : M A := fun g => Ok (a, g).

Definition bind {A B : Type} (c : M A) (k : A -> M B) : M B :=
  fun g =>
    match c g with
    | Ok (a, g') => k a g'
    | Raise e => Raise e
    end.

Definition lift {A : Type} (r : result A) : M A :=
  fun g =>
    match r with
    | Ok a => Ok (a, g)
    | Raise e => Raise e
    end.

Declare Scope model_scope.
Delimit Scope model_scope with model.
Notation "x <- c ;; k" := (bind c (fun x => k))
  (at level 61, c at next level, right associativity) : model_scope.

(** ** The tensor operations that the model calls *)

Module Torch.

(** A one-dimensional tensor, and a two-dimensional one as its rows.  An
    empty two-dimensional tensor does not record its number of columns. *)
Definition tensor1 : Type := list R.
Definition tensor2 : Type := list (list R).

(** Broadcasting along one axis: equal sizes pair up, a size of one is
    repeated, anything else raises. *)
Definition broadcast {A B : Type} (f : A -> A -> B) (xs ys : list A)
  : result (list B) :=
  if Nat.eqb (length xs) (length ys) then Ok (zip_with f xs ys)
  else
    match xs, ys with
    | [x], _ => Ok (map (f x) ys)
    | _, [y] => Ok (map (fun x => f x y) xs)
    | _, _ => Raise RuntimeError
    end.

(** [torch.mul] of two two-dimensional tensors. *)
Definition mul (a b : tensor2) : result tensor2 :=
  rbind (broadcast (broadcast Rmult) a b) sequence.

(** [+] of two one-dimensional tensors. *)
Definition add (a b : tensor1) : result tensor1 :=
  broadcast Rplus a b.

(** [.sum(axis=1)]: the sum of each row. *)
Definition sum_row (row : list R) : R := fold_right Rplus 0 row.

Definition sum_axis1 (t : tensor2) : tensor1 := map sum_row t.

(** [.squeeze(1)]: drops axis 1 when its size is one.  On any other size
    the tensor library leaves the tensor two-dimensional; that case is not
    represented here. *)
Definition squeeze1 (t : tensor2) : result tensor1 :=
  mapM (fun row => match row with
                   | [x] => Ok x
                   | _ => Raise Unmodelled
                   end) t.

(** [torch.sigmoid], elementwise. *)
Definition sigmoid1 (x : R) : R := 1 / (1 + exp (- x)).

Definition sigmoid (t : tensor1) : tensor1 := map sigmoid1 t.

(** A tensor times, and plus, a Python float. *)
Definition mul_scalar (t : tensor1) (c : R) : tensor1 := map (fun x => x * c) t.

Definition add_scalar (t : tensor1) (c : R) : tensor1 := map (fun x => x + c) t.

(** Calling an [nn.Embedding]: row [i] of the weight for every index [i]
    of the batch.  Indices are integers; a negative one, or one past the
    last row, raises. *)
Definition embedding_row (weight : tensor2) (i : Z) : result (list R) :=
  if (i <? 0)%Z then Raise IndexError
  else
    match nth_error weight (Z.to_nat i) with
    | Some row => Ok row
    | None => Raise IndexError
    end.

Definition embedding (weight : tensor2) (idx : list Z) : result tensor2 :=
  mapM (embedding_row weight) idx.

(** The Bernoulli noise of a dropout call: one draw per element, row after
    row. *)
Fixpoint sample_like (t : tensor2) (g : rng) : list (list bool) * rng :=
  match t with
  | [] => ([], g)
  | row :: rest =>
      let (bs, g1) := sample_row (length row) g in
      let (bss, g2) := sample_like rest g1 in
      (bs :: bss, g2)
  end.

(** One element after dropout with probability [p]: kept and rescaled by
    [1 / (1 - p)], or zeroed. *)
Definition drop_elem (p : R) (x : R) (keep : bool) : R :=
  x * ((if keep then 1 else 0) / (1 - p)).

(** Calling an [nn.Dropout] of probability [p] on a module whose training
    flag is [training]. *)
Definition dropout (p : R) (training : bool) (t : tensor2) : M tensor2 :=
  fun g =>
    if Rlt_dec p 0 then Raise ValueError
    else if Rlt_dec 1 p then Raise ValueError
    else if negb training then Ok (t, g)
    else if Req_dec_T p 0 then Ok (t, g)
    else if Req_dec_T p 1 then Ok (map (map (fun x => x * 0)) t, g)
    else
      let (noise, g') := sample_like t g in
      Ok (zip_with (zip_with (drop_elem p)) t noise, g').

End Torch.

(** ** The embedding layers of [collie.model.base] *)

Module Base.

(** Modelled from the spec: [ZeroEmbedding] is defined in
    [collie/model/base.py]; the data model describes the tables built with
    it as "initialized to zero".  A table of [num_embeddings] rows and
    [embedding_dim] columns, every entry zero. *)
Definition ZeroEmbedding (num_embeddings embedding_dim : nat) : Torch.tensor2 :=
  repeat (repeat 0 embedding_dim) num_embeddings.

(** Modelled from the spec: [ScaledEmbedding] is defined in
    [collie/model/base.py]; the data model describes the tables built with
    it as "initialized with small-scale random values".  The random values
    are an input: [init r c] is the draw for row [r], column [c]. *)
Definition ScaledEmbedding (num_embeddings embedding_dim : nat)
  (init : nat -> nat -> R) : Torch.tensor2 :=
  map (fun r => map (init r) (seq 0 embedding_dim)) (seq 0 num_embeddings).

End Base.

(** ** The model *)

Module MatrixFactorizationModel.

Local Open Scope model_scope.

(** The hyperparameters that [_setup_model] and [forward] read. *)
Record HParams : Type := mk_hparams {
  num_users : nat;
  num_items : nat;
  embedding_dim : nat;
  dropout_p : R;
  sparse : bool;
  y_range : option (R * R)
}.

(** The state of a model after setup.  [dropout] is the probability held by
    the dropout layer; [training] is the flag that [train()] and [eval()]
    set on the model and on its layers alike. *)
Record t : Type := mk_model {
  hparams : HParams;
  user_biases : Torch.tensor2;
  item_biases : Torch.tensor2;
  user_embeddings : Torch.tensor2;
  item_embeddings : Torch.tensor2;
  dropout : R;
  training : bool
}.

(** [nn.Dropout(p)] refuses a probability outside [0, 1]. *)
Definition nn_Dropout (p : R) : result R :=
  if Rlt_dec p 0 then Raise ValueError
  else if Rlt_dec 1 p then Raise ValueError
  else Ok p.

(** [_setup_model]: the four tables and the dropout layer.  [init_users]
    and [init_items] are the random draws of the two embedding tables;
    [self_training] is the training flag of the module being set up. *)
Definition _setup_model (hp : HParams) (init_users init_items : nat -> nat -> R)
  (self_training : bool) : result t :=
  let user_biases := Base.ZeroEmbedding (num_users hp) 1 in
  let item_biases := Base.ZeroEmbedding (num_items hp) 1 in
  let user_embeddings :=
    Base.ScaledEmbedding (num_users hp) (embedding_dim hp) init_users in
  let item_embeddings :=
    Base.ScaledEmbedding (num_items hp) (embedding_dim hp) init_items in
  rbind (nn_Dropout (dropout_p hp)) (fun dropout =>
  Ok (mk_model hp user_biases item_biases user_embeddings item_embeddings
        dropout self_training)).

(** The output-range step of [forward]: a sigmoid, then the affine map
    into the range. *)
Definition apply_y_range (range : R * R) (preds : Torch.tensor1) : Torch.tensor1 :=
  Torch.add_scalar
    (Torch.mul_scalar (Torch.sigmoid preds) (snd range - fst range))
    (fst range).

(** [forward]. *)
Definition forward (self : t) (users items : list Z) : M Torch.tensor1 :=
  user_embeddings <- lift (Torch.embedding (user_embeddings self) users) ;;
  item_embeddings <- lift (Torch.embedding (item_embeddings self) items) ;;
  dropped_users <- Torch.dropout (dropout self) (training self) user_embeddings ;;
  dropped_items <- Torch.dropout (dropout self) (training self) item_embeddings ;;
  product <- lift (Torch.mul dropped_users dropped_items) ;;
  user_bias <- lift (rbind (Torch.embedding (user_biases self) users) Torch.squeeze1) ;;
  partial <- lift (Torch.add (Torch.sum_axis1 product) user_bias) ;;
  item_bias <- lift (rbind (Torch.embedding (item_biases self) items) Torch.squeeze1) ;;
  preds <- lift (Torch.add partial item_bias) ;;
  match y_range (hparams self) with
  | None => ret preds
  | Some range => ret (apply_y_range range preds)
  end.

(** [_get_item_embeddings]. *)
Definition _get_item_embeddings (self : t) : Torch.tensor2 :=
  item_embeddings self.

(** [nn.Module.train(mode)] and [nn.Module.eval()]. *)
Definition train (mode : bool) (self : t) : t :=
  mk_model (hparams self) (user_biases self) (item_biases self)
    (user_embeddings self) (item_embeddings self) (dropout self) mode.

Definition eval (self : t) : t := train false self.

(** *** What the claims quantify over *)

(** The shapes that [_setup_model] allocates, kept by every optimizer step,
    and a dropout probability that [nn.Dropout] accepts. *)
Record valid_model (self : t) : Prop := mk_valid {
  valid_user_embeddings :
    length (user_embeddings self) = num_users (hparams self) /\
    Forall (fun row => length row = embedding_dim (hparams self))
      (user_embeddings self);
  valid_item_embeddings :
    length (item_embeddings self) = num_items (hparams self) /\
    Forall (fun row => length row = embedding_dim (hparams self))
      (item_embeddings self);
  valid_user_biases :
    length (user_biases self) = num_users (hparams self) /\
    Forall (fun row => length row = 1%nat) (user_biases self);
  valid_item_biases :
    length (item_biases self) = num_items (hparams self) /\
    Forall (fun row => length row = 1%nat) (item_biases self);
  valid_dropout : 0 <= dropout self <= 1
}.

(** Indices within [0, num_users) and [0, num_items). *)
Definition valid_index (n : nat) (i : Z) : Prop := (0 <= i < Z.of_nat n)%Z.

Definition valid_users (self : t) (users : list Z) : Prop :=
  Forall (valid_index (num_users (hparams self))) users.

Definition valid_items (self : t) (items : list Z) : Prop :=
  Forall (valid_index (num_items (hparams self))) items.

(** Row [i] of a table, and the scalar of a bias table at [i]. *)
Definition row_at (table : Torch.tensor2) (i : Z) : list R :=
  nth (Z.to_nat i) table [].

Definition bias_at (table : Torch.tensor2) (i : Z) : R :=
  hd 0 (row_at table i).

(** The dot product of two vectors. *)
Definition dot (a b : list R) : R := Torch.sum_row (zip_with Rmult a b).

(** The affine image of the sigmoid of a raw score. *)
Definition squash (lo hi : R) (score : R) : R :=
  lo + Torch.sigmoid1 score * (hi - lo).

(** The same model with another output range. *)
Definition with_y_range (range : option (R * R)) (self : t) : t :=
  mk_model
    (mk_hparams (num_users (hparams self)) (num_items (hparams self))
       (embedding_dim (hparams self)) (dropout_p (hparams self))
       (sparse (hparams self)) range)
    (user_biases self) (item_biases self)
    (user_embeddings self) (item_embeddings self)
    (dropout self) (training self).

(** Every entry of a table is zero. *)
Definition all_zero (table : Torch.tensor2) : Prop :=
  Forall (Forall (fun x => x = 0)) table.

(** The looked-up rows of a batch of indices. *)
Definition rows_at (table : Torch.tensor2) (idx : list Z) : Torch.tensor2 :=
  map (row_at table) idx.

(** The scores of a batch before the output-range step, from the two
    embedding batches as dropout returned them. *)
Definition raw_scores (self : t) (users items : list Z)
  (dropped_users dropped_items : Torch.tensor2) : Torch.tensor1 :=
  zip_with Rplus
    (zip_with Rplus
       (Torch.sum_axis1 (zip_with (zip_with Rmult) dropped_users dropped_items))
       (map (bias_at (user_biases self)) users))
    (map (bias_at (item_biases self)) items).

(** The last step of [forward], by the configured range. *)
Definition finish (range : option (R * R)) (preds : Torch.tensor1) : Torch.tensor1 :=
  match range with
  | None => preds
  | Some r => apply_y_range r preds
  end.

(** The steps of [forward] after the two dropout calls: the product, its
    row sums, the two biases and the configured range. *)
Definition combine_scores (self : t) (users items : list Z)
  (dropped_users dropped_items : Torch.tensor2) : result Torch.tensor1 :=
  rbind (Torch.mul dropped_users dropped_items) (fun product =>
  rbind (Torch.add (Torch.sum_axis1 product)
           (map (bias_at (user_biases self)) users)) (fun partial =>
  rbind (Torch.add partial (map (bias_at (item_biases self)) items)) (fun preds =>
  Ok (finish (y_range (hparams self)) preds)))).

(** Two batch lengths that broadcast together, and the length of the
    result. *)
Definition broadcastable (n m : nat) : Prop :=
  n = m \/ n = 1%nat \/ m = 1%nat.

Definition broadcast_length (n m : nat) : nat :=
  if Nat.eqb n 1 then m else n.

(** Some index of a batch lies outside its table. *)
Definition some_invalid (n : nat) (idx : list Z) : Prop :=
  Exists (fun i => ~ valid_index n i) idx.

(** The keep flags that a dropout call reads for one row of width [d],
    starting at position [start] of the draws. *)
Definition mask_row (g : rng) (start d : nat) : list bool :=
  map (fun j => draws g (start + j)%nat) (seq 0 d).

(** The factor of one coordinate of the product of two dropout outputs:
    [1 / (1 - p)] squared when both sides kept it, zero otherwise. *)
Definition keep_both (p : R) (keep_user keep_item : bool) : R :=
  if keep_user && keep_item then / ((1 - p) * (1 - p)) else 0.

End MatrixFactorizationModel.

(** ** The output range in float32

    The predictions are float32 tensors and the two ends of [y_range] are
    Python floats, that is binary64.  The operations are those of IEEE 754
    with round-to-nearest-even, at precision 24 for float32 and 53 for
    binary64. *)

Module Float32.

Definition float32 : Type := SpecFloat.spec_float.
Definition float64 : Type := SpecFloat.spec_float.

Definition add32 : float32 -> float32 -> float32 := SpecFloat.SFadd 24 128.
Definition mul32 : float32 -> float32 -> float32 := SpecFloat.SFmul 24 128.
Definition div32 : float32 -> float32 -> float32 := SpecFloat.SFdiv 24 128.
Definition sub64 : float64 -> float64 -> float64 := SpecFloat.SFsub 53 1024.
Definition div64 : float64 -> float64 -> float64 := SpecFloat.SFdiv 53 1024.
Definition leb64 : float64 -> float64 -> bool := SpecFloat.SFleb.
Definition ltb64 : float64 -> float64 -> bool := SpecFloat.SFltb.

(** The binary64 and the float32 nearest to [m * 2 ^ e]. *)
Definition dyadic64 (m e : Z) : float64 :=
  SpecFloat.binary_normalize 53 1024 m e false.

Definition dyadic32 (m e : Z) : float32 :=
  SpecFloat.binary_normalize 24 128 m e false.

Definition one32 : float32 := dyadic32 1 0.

(** A Python float cast to float32, as when it meets a float32 tensor. *)
Definition round32 (x : float64) : float32 :=
  match x with
  | SpecFloat.S754_finite s m e =>
      SpecFloat.binary_normalize 24 128 (SpecFloat.cond_Zopp s (Zpos m)) e s
  | _ => x
  end.

(** A float32 as the binary64 of the same value. *)
Definition widen (x : float32) : float64 :=
  match x with
  | SpecFloat.S754_finite s m e =>
      SpecFloat.binary_normalize 53 1024 (SpecFloat.cond_Zopp s (Zpos m)) e s
  | _ => x
  end.

(** [torch.sigmoid] of a float32 score [x] is [1 / (1 + exp (- x))] in
    float32; [e] is what the float32 exponential returned for [- x]. *)
Definition sigmoid_kernel32 (e : float32) : float32 :=
  div32 one32 (add32 one32 e).

(** The output-range step of [forward] on the float32 outputs of the
    sigmoid: [y_range[1] - y_range[0]] is taken in binary64 and cast to
    float32 for the product, [y_range[0]] is cast to float32 for the sum. *)
Definition apply_y_range32 (range : float64 * float64) (sigmoids : list float32)
  : list float32 :=
  map (fun s =>
         add32 (mul32 s (round32 (sub64 (snd range) (fst range))))
               (round32 (fst range)))
      sigmoids.

(** A prediction lies in the closed interval of the range. *)
Definition within (range : float64 * float64) (p : float32) : bool :=
  leb64 (fst range) (widen p) && leb64 (widen p) (snd range).

End Float32.

(** ** A small model to run the statements on *)

Module Example.

Import MatrixFactorizationModel.

(** Two users, three items, embeddings of width two, dropout one half. *)
Definition hp : HParams := mk_hparams 2 3 2 (1 / 2) false None.

Definition model : t :=
  mk_model hp
    [[1 / 2]; [-1]]
    [[0]; [1]; [2]]
    [[1; 2]; [3; 4]]
    [[1; 0]; [0; 1]; [1; 1]]
    (1 / 2) true.

(** The same model with ratings squashed into [1, 5]. *)
Definition rated : t := with_y_range (Some (1, 5)) model.

(** A model whose embedding tables are all zero. *)
Definition flat : t :=
  mk_model hp
    [[1 / 2]; [-1]]
    [[0]; [1]; [2]]
    [[0; 0]; [0; 0]]
    [[0; 0]; [0; 0]; [0; 0]]
    (1 / 2) true.

(** A model without biases and without dropout. *)
Definition plain : t :=
  mk_model (mk_hparams 2 3 2 0 false None)
    [[0]; [0]]
    [[0]; [0]; [0]]
    [[1; 2]; [3; 4]]
    [[1; 0]; [0; 1]; [1; 1]]
    0 true.

(** One user, one item, all tables zero, no dropout, predictions squashed
    into [0, 1]. *)
Definition squashed_zero : t :=
  mk_model (mk_hparams 1 1 1 0 false (Some (0, 1)))
    [[0]] [[0]] [[0]] [[0]] 0 false.

Definition users : list Z := [0; 1]%Z.
Definition items : list Z := [2; 0]%Z.

(** Draws that keep every second element. *)
Definition g : rng := mk_rng Nat.even 0.

(** The range [(-1000.0, 3 * 2 ** -16)] and the range [(0.1, 0.7)], as
    Python floats. *)
Definition narrow_top : Float32.float64 * Float32.float64 :=
  (Float32.dyadic64 (-1000) 0, Float32.dyadic64 3 (-16)).

Definition tenths : Float32.float64 * Float32.float64 :=
  (Float32.div64 (Float32.dyadic64 1 0) (Float32.dyadic64 10 0),
   Float32.div64 (Float32.dyadic64 7 0) (Float32.dyadic64 10 0)).

End Example.

(** * Properties *)

(** ** Lists and results *)

Section ListFacts.

Context {A B C : Type}.

Lemma zip_with_length (f : A -> B -> C) (xs : list A) (ys : list B) :
  length xs = length ys -> length (zip_with f xs ys) = length xs.
Proof.
  revert ys; induction xs as [|x xs IH]; intros [|y ys] H; simpl in *;
    try discriminate; auto.
Qed.

Lemma nth_error_zip_with (f : A -> B -> C) (xs : list A) (ys : list B) k a b :
  nth_error xs k = Some a -> nth_error ys k = Some b ->
  nth_error (zip_with f xs ys) k = Some (f a b).
Proof.
  revert ys k; induction xs as [|x xs IH]; intros [|y ys] [|k] Ha Hb;
    simpl in *; try discriminate.
  - congruence.
  - eauto.
Qed.

Lemma mapM_ok (f : A -> result B) (g : A -> B) (xs : list A) :
  Forall (fun x => f x = Ok (g x)) xs -> mapM f xs = Ok (map g xs).
Proof.
  induction 1 as [|x xs Hx _ IH]; simpl; [reflexivity|].
  rewrite Hx; simpl. rewrite IH; reflexivity.
Qed.

Lemma sequence_ok (xs : list A) : sequence (map Ok xs) = Ok xs.
Proof.
  induction xs as [|x xs IH]; simpl; [reflexivity|].
  rewrite IH; reflexivity.
Qed.

End ListFacts.

Lemma zip_with_ok_map {A B C : Type} (f : A -> B -> result C) (g : A -> B -> C)
    (xs : list A) (ys : list B) :
  Forall2 (fun x y => f x y = Ok (g x y)) xs ys ->
  zip_with f xs ys = map Ok (zip_with g xs ys).
Proof.
  induction 1 as [|x y xs ys Hxy _ IH]; simpl; [reflexivity|].
  rewrite Hxy, IH; reflexivity.
Qed.

Lemma same_shape_length {A B : Type} (a : list (list A)) (b : list (list B)) :
  same_shape a b -> length a = length b.
Proof. induction 1; simpl; congruence. Qed.

Lemma same_shape_sym {A B : Type} (a : list (list A)) (b : list (list B)) :
  same_shape a b -> same_shape b a.
Proof. induction 1; constructor; auto. Qed.

Lemma same_shape_trans {A B C : Type} (a : list (list A)) (b : list (list B))
    (c : list (list C)) :
  same_shape a b -> same_shape b c -> same_shape a c.
Proof.
  intros Hab; revert c.
  induction Hab as [|r r' a b Hr _ IH]; intros c Hbc; inversion Hbc; subst.
  - constructor.
  - constructor; [congruence | apply IH; assumption].
Qed.

Lemma same_shape_width {A B : Type} (d : nat) (a : list (list A)) (b : list (list B)) :
  length a = length b ->
  Forall (fun r => length r = d) a -> Forall (fun r => length r = d) b ->
  same_shape a b.
Proof.
  revert b; induction a as [|r a IH]; intros [|r' b] Hlen Ha Hb;
    simpl in *; try discriminate; [constructor|].
  inversion Ha; inversion Hb; subst.
  constructor; [congruence | apply IH; auto].
Qed.

(** ** The tensor operations *)

Module TorchFacts.

Import Torch.

Lemma broadcast_same_length {A B : Type} (f : A -> A -> B) (xs ys : list A) :
  length xs = length ys -> broadcast f xs ys = Ok (zip_with f xs ys).
Proof.
  intros H. unfold broadcast. rewrite H, Nat.eqb_refl. reflexivity.
Qed.

Lemma mul_same_shape (a b : tensor2) :
  same_shape a b -> mul a b = Ok (zip_with (zip_with Rmult) a b).
Proof.
  intros H. unfold mul.
  rewrite broadcast_same_length by (eapply same_shape_length; eauto).
  simpl.
  rewrite (zip_with_ok_map _ (zip_with Rmult)).
  - apply sequence_ok.
  - induction H; constructor; auto.
    apply broadcast_same_length; assumption.
Qed.

Lemma add_same_length (a b : tensor1) :
  length a = length b -> add a b = Ok (zip_with Rplus a b).
Proof. apply broadcast_same_length. Qed.

Lemma squeeze1_unit_rows (t : tensor2) :
  Forall (fun row => length row = 1%nat) t -> squeeze1 t = Ok (map (hd 0) t).
Proof.
  intros H. apply mapM_ok.
  eapply Forall_impl; [|exact H].
  intros [|x [|y r]] Hr; simpl in *; try discriminate; reflexivity.
Qed.

Lemma embedding_row_valid (weight : tensor2) (i : Z) :
  (0 <= i < Z.of_nat (length weight))%Z ->
  embedding_row weight i = Ok (nth (Z.to_nat i) weight []).
Proof.
  intros H. unfold embedding_row.
  destruct (Z.ltb_spec i 0); [lia|].
  destruct (nth_error weight (Z.to_nat i)) eqn:E.
  - erewrite nth_error_nth; eauto.
  - apply nth_error_None in E. lia.
Qed.

Lemma embedding_valid (weight : tensor2) (idx : list Z) :
  Forall (fun i => (0 <= i < Z.of_nat (length weight))%Z) idx ->
  embedding weight idx = Ok (map (fun i => nth (Z.to_nat i) weight []) idx).
Proof.
  intros H. apply mapM_ok.
  eapply Forall_impl; [|exact H].
  intros i Hi. apply embedding_row_valid; assumption.
Qed.

Lemma sample_row_length (d : nat) (g : rng) :
  length (fst (sample_row d g)) = d.
Proof.
  revert g; induction d as [|d IH]; intros g; simpl; [reflexivity|].
  specialize (IH (mk_rng (draws g) (S (pos g)))).
  destruct (sample_row d _); simpl in *. congruence.
Qed.

Lemma sample_like_shape (t : tensor2) (g : rng) :
  same_shape t (fst (sample_like t g)).
Proof.
  revert g; induction t as [|row t IH]; intros g; simpl; [constructor|].
  pose proof (sample_row_length (length row) g) as Hrow.
  destruct (sample_row (length row) g) as [bs g1]; simpl in Hrow.
  specialize (IH g1).
  destruct (sample_like t g1) as [bss g2]; simpl in *.
  constructor; [congruence | assumption].
Qed.

Lemma zip_with_shape {A B C : Type} (f : A -> B -> C)
    (a : list (list A)) (b : list (list B)) :
  same_shape a b -> same_shape a (zip_with (zip_with f) a b).
Proof.
  induction 1; simpl; constructor; auto.
  symmetry; apply zip_with_length; assumption.
Qed.

Lemma map_map_shape {A B : Type} (f : A -> B) (a : list (list A)) :
  same_shape a (map (map f) a).
Proof.
  induction a; simpl; constructor; auto.
  symmetry; apply length_map.
Qed.

Lemma same_shape_refl {A : Type} (a : list (list A)) : same_shape a a.
Proof. induction a; constructor; auto. Qed.

(** A dropout call with an accepted probability returns, and returns a
    tensor of the shape it was given. *)
Lemma dropout_total (p : R) (training : bool) (t : tensor2) (g : rng) :
  0 <= p <= 1 ->
  exists t' g', dropout p training t g = Ok (t', g') /\ same_shape t t'.
Proof.
  intros [Hp0 Hp1]. unfold dropout.
  destruct (Rlt_dec p 0); [lra|].
  destruct (Rlt_dec 1 p); [lra|].
  destruct training; simpl.
  - destruct (Req_dec_T p 0).
    + eexists _, _; split; [reflexivity | apply same_shape_refl].
    + destruct (Req_dec_T p 1).
      * eexists _, _; split; [reflexivity | apply map_map_shape].
      * pose proof (sample_like_shape t g) as Hs.
        destruct (sample_like t g) as [noise g']; simpl in Hs.
        eexists _, _; split; [reflexivity | apply zip_with_shape; assumption].
  - eexists _, _; split; [reflexivity | apply same_shape_refl].
Qed.

(** Outside training mode, and at probability zero, dropout returns its
    input and reads no draw. *)
Lemma dropout_disabled (p : R) (training : bool) (t : tensor2) (g : rng) :
  0 <= p <= 1 -> p = 0 \/ training = false ->
  dropout p training t g = Ok (t, g).
Proof.
  intros [Hp0 Hp1] Hoff. unfold dropout.
  destruct (Rlt_dec p 0); [lra|].
  destruct (Rlt_dec 1 p); [lra|].
  destruct training; simpl; [|reflexivity].
  destruct Hoff as [->|]; [|discriminate].
  destruct (Req_dec_T 0 0); [reflexivity | congruence].
Qed.

End TorchFacts.

(** ** The forward pass *)

Module ForwardFacts.

Import Torch TorchFacts MatrixFactorizationModel.

Lemma valid_index_table (n : nat) (table : tensor2) (idx : list Z) :
  length table = n -> Forall (valid_index n) idx ->
  Forall (fun i => (0 <= i < Z.of_nat (length table))%Z) idx.
Proof. intros <- H. exact H. Qed.

Lemma rows_at_width (d n : nat) (table : tensor2) (idx : list Z) :
  length table = n -> Forall (fun row => length row = d) table ->
  Forall (valid_index n) idx ->
  Forall (fun row => length row = d) (rows_at table idx).
Proof.
  intros Hlen Hrows Hidx. unfold rows_at.
  apply Forall_map. eapply Forall_impl; [|exact Hidx].
  intros i Hi. unfold valid_index in Hi. unfold row_at.
  rewrite Forall_forall in Hrows. apply Hrows. apply nth_In. lia.
Qed.

Lemma embedding_rows_at (n : nat) (table : tensor2) (idx : list Z) :
  length table = n -> Forall (valid_index n) idx ->
  embedding table idx = Ok (rows_at table idx).
Proof.
  intros Hlen Hidx. apply embedding_valid.
  eapply valid_index_table; eauto.
Qed.

Lemma bias_lookup (n : nat) (table : tensor2) (idx : list Z) :
  length table = n -> Forall (fun row => length row = 1%nat) table ->
  Forall (valid_index n) idx ->
  rbind (embedding table idx) squeeze1 = Ok (map (bias_at table) idx).
Proof.
  intros Hlen Hrows Hidx.
  rewrite (embedding_rows_at n) by assumption. simpl.
  rewrite squeeze1_unit_rows by (eapply rows_at_width; eauto).
  unfold rows_at. rewrite map_map. reflexivity.
Qed.

(** On a valid model and a valid batch, [forward] returns: the two dropout
    calls run one after the other on the looked-up rows, and the result is
    the raw scores of their outputs, finished by the configured range. *)
Lemma forward_run (self : t) (users items : list Z) (g : rng) :
  valid_model self -> valid_users self users -> valid_items self items ->
  length users = length items ->
  exists dropped_users dropped_items g1 g2,
    Torch.dropout (dropout self) (training self)
      (rows_at (user_embeddings self) users) g = Ok (dropped_users, g1) /\
    Torch.dropout (dropout self) (training self)
      (rows_at (item_embeddings self) items) g1 = Ok (dropped_items, g2) /\
    same_shape (rows_at (user_embeddings self) users) dropped_users /\
    same_shape (rows_at (item_embeddings self) items) dropped_items /\
    same_shape dropped_users dropped_items /\
    forward self users items g =
      Ok (finish (y_range (hparams self))
            (raw_scores self users items dropped_users dropped_items), g2).
Proof.
  intros [[Hue Hue'] [Hie Hie'] [Hub Hub'] [Hib Hib'] Hp] Hu Hi Hlen.
  unfold valid_users in Hu. unfold valid_items in Hi.
  destruct (dropout_total (dropout self) (training self)
              (rows_at (user_embeddings self) users) g Hp)
    as (du & g1 & Hdu & Hsu).
  destruct (dropout_total (dropout self) (training self)
              (rows_at (item_embeddings self) items) g1 Hp)
    as (di & g2 & Hdi & Hsi).
  assert (Hrows : same_shape (rows_at (user_embeddings self) users)
                    (rows_at (item_embeddings self) items)).
  { apply (same_shape_width (embedding_dim (hparams self))).
    - unfold rows_at. rewrite !length_map. assumption.
    - eapply rows_at_width; eauto.
    - eapply rows_at_width; eauto. }
  assert (Hs : same_shape du di).
  { eapply same_shape_trans; [apply same_shape_sym; exact Hsu|].
    eapply same_shape_trans; [exact Hrows | exact Hsi]. }
  exists du, di, g1, g2.
  repeat split; try assumption.
  unfold forward, bind, lift.
  rewrite (embedding_rows_at _ _ _ Hue Hu).
  rewrite (embedding_rows_at _ _ _ Hie Hi).
  rewrite Hdu, Hdi.
  rewrite (mul_same_shape _ _ Hs).
  rewrite (bias_lookup _ _ _ Hub Hub' Hu).
  assert (Hlen_du : length du = length users).
  { rewrite <- (same_shape_length _ _ Hsu). unfold rows_at. apply length_map. }
  rewrite add_same_length.
  2:{ unfold sum_axis1. rewrite !length_map, zip_with_length.
      - assumption.
      - eapply same_shape_length; eauto. }
  rewrite (bias_lookup _ _ _ Hib Hib' Hi).
  rewrite add_same_length.
  2:{ rewrite zip_with_length.
      - unfold sum_axis1. rewrite !length_map, zip_with_length.
        + congruence.
        + eapply same_shape_length; eauto.
      - unfold sum_axis1. rewrite !length_map, zip_with_length.
        + assumption.
        + eapply same_shape_length; eauto. }
  unfold raw_scores, finish, ret.
  destruct (y_range (hparams self)); reflexivity.
Qed.

Lemma raw_scores_length (self : t) (users items : list Z) (du di : tensor2) :
  length du = length users -> length di = length users ->
  length items = length users ->
  length (raw_scores self users items du di) = length users.
Proof.
  intros Hdu Hdi Hlen. unfold raw_scores, sum_axis1.
  assert (H1 : length (map sum_row (zip_with (zip_with Rmult) du di))
               = length users).
  { rewrite length_map, zip_with_length; congruence. }
  assert (H2 : length (zip_with Rplus
                         (map sum_row (zip_with (zip_with Rmult) du di))
                         (map (bias_at (user_biases self)) users))
               = length users).
  { rewrite zip_with_length; rewrite H1; [reflexivity|].
    symmetry; apply length_map. }
  rewrite zip_with_length; rewrite H2; [reflexivity|].
  rewrite length_map. symmetry; assumption.
Qed.

(** The raw score of the pair at position [k] of the batch. *)
Lemma raw_scores_nth (self : t) (users items : list Z) (du di : tensor2)
    (k : nat) (u i : Z) (ru ri : list R) :
  nth_error users k = Some u -> nth_error items k = Some i ->
  nth_error du k = Some ru -> nth_error di k = Some ri ->
  nth_error (raw_scores self users items du di) k =
    Some (sum_row (zip_with Rmult ru ri)
          + bias_at (user_biases self) u + bias_at (item_biases self) i).
Proof.
  intros Hu Hi Hru Hri. unfold raw_scores, sum_axis1.
  apply nth_error_zip_with.
  - apply nth_error_zip_with.
    + apply map_nth_error.
      apply nth_error_zip_with; assumption.
    + apply map_nth_error; assumption.
  - apply map_nth_error; assumption.
Qed.

(** [forward_run], pair by pair. *)
Lemma forward_pairs (self : t) (users items : list Z) (g : rng) :
  valid_model self -> valid_users self users -> valid_items self items ->
  length users = length items ->
  exists dropped_users dropped_items g1 g2 raw,
    Torch.dropout (dropout self) (training self)
      (rows_at (user_embeddings self) users) g = Ok (dropped_users, g1) /\
    Torch.dropout (dropout self) (training self)
      (rows_at (item_embeddings self) items) g1 = Ok (dropped_items, g2) /\
    forward self users items g = Ok (finish (y_range (hparams self)) raw, g2) /\
    length raw = length users /\
    forall k u i,
      nth_error users k = Some u -> nth_error items k = Some i ->
      nth_error raw k =
        Some (sum_row (zip_with Rmult (nth k dropped_users [])
                                      (nth k dropped_items []))
              + bias_at (user_biases self) u
              + bias_at (item_biases self) i).
Proof.
  intros Hv Hu Hi Hlen.
  destruct (forward_run self users items g Hv Hu Hi Hlen)
    as (du & di & g1 & g2 & Hdu & Hdi & Hsu & Hsi & Hs & Hf).
  assert (Hlu : length du = length users).
  { rewrite <- (same_shape_length _ _ Hsu). apply length_map. }
  assert (Hli : length di = length users).
  { rewrite <- (same_shape_length _ _ Hs). assumption. }
  exists du, di, g1, g2, (raw_scores self users items du di).
  repeat split; try assumption.
  - apply raw_scores_length; congruence.
  - intros k u i Hku Hki.
    assert (Hk : (k < length users)%nat)
      by (apply nth_error_Some; congruence).
    apply raw_scores_nth; try assumption.
    + apply nth_error_nth'. lia.
    + apply nth_error_nth'. lia.
Qed.

(** With dropout disabled, [forward] reads no draw and scores the
    looked-up rows themselves. *)
Lemma forward_dropout_disabled (self : t) (users items : list Z) (g : rng) :
  valid_model self -> dropout self = 0 \/ training self = false ->
  valid_users self users -> valid_items self items ->
  length users = length items ->
  forward self users items g =
    Ok (finish (y_range (hparams self))
          (raw_scores self users items
             (rows_at (user_embeddings self) users)
             (rows_at (item_embeddings self) items)), g).
Proof.
  intros Hv Hoff Hu Hi Hlen.
  destruct (forward_run self users items g Hv Hu Hi Hlen)
    as (du & di & g1 & g2 & Hdu & Hdi & _ & _ & _ & Hf).
  rewrite dropout_disabled in Hdu by (try apply Hv; assumption).
  injection Hdu as <- <-.
  rewrite dropout_disabled in Hdi by (try apply Hv; assumption).
  injection Hdi as <- <-.
  exact Hf.
Qed.

Lemma rows_at_nth (table : tensor2) (idx : list Z) (k : nat) (i : Z) :
  nth_error idx k = Some i -> nth k (rows_at table idx) [] = row_at table i.
Proof.
  intros H. apply nth_error_nth. unfold rows_at.
  apply map_nth_error. assumption.
Qed.

(** Tables of zeros. *)
Lemma all_zero_nth (table : tensor2) (k : nat) :
  all_zero table -> Forall (fun x => x = 0) (nth k table []).
Proof.
  intros H. unfold all_zero in H. rewrite Forall_forall in H.
  destruct (nth_in_or_default k table []) as [Hin | ->]; [auto | constructor].
Qed.

Lemma all_zero_rows_at (table : tensor2) (idx : list Z) :
  all_zero table -> all_zero (rows_at table idx).
Proof.
  intros H. unfold all_zero, rows_at. apply Forall_map, Forall_forall.
  intros i _. apply all_zero_nth. assumption.
Qed.

Lemma bias_at_zero (table : tensor2) (i : Z) :
  all_zero table -> bias_at table i = 0.
Proof.
  intros H. unfold bias_at, row_at.
  pose proof (all_zero_nth table (Z.to_nat i) H) as Hrow.
  destruct (nth (Z.to_nat i) table []); simpl; [reflexivity|].
  inversion Hrow; assumption.
Qed.

Lemma sum_row_zero_product (a b : list R) :
  Forall (fun x => x = 0) a -> sum_row (zip_with Rmult a b) = 0.
Proof.
  intros H; revert b.
  induction H as [|x a Hx _ IH]; intros [|y b]; simpl; try reflexivity.
  rewrite IH, Hx. ring.
Qed.

Lemma drop_row_zero (p : R) (row : list R) (keep : list bool) :
  Forall (fun x => x = 0) row ->
  Forall (fun x => x = 0) (zip_with (drop_elem p) row keep).
Proof.
  intros H; revert keep.
  induction H as [|x row Hx _ IH]; intros [|b keep]; simpl; constructor.
  - unfold drop_elem. rewrite Hx. ring.
  - apply IH.
Qed.

(** Dropout of a tensor of zeros is a tensor of zeros. *)
Lemma dropout_all_zero (p : R) (tr : bool) (table table' : tensor2) (g g' : rng) :
  Torch.dropout p tr table g = Ok (table', g') ->
  all_zero table -> all_zero table'.
Proof.
  unfold Torch.dropout. intros H Hz.
  destruct (Rlt_dec p 0); [discriminate|].
  destruct (Rlt_dec 1 p); [discriminate|].
  destruct (negb tr); [injection H as <- _; assumption|].
  destruct (Req_dec_T p 0); [injection H as <- _; assumption|].
  destruct (Req_dec_T p 1).
  - injection H as <- _. unfold all_zero.
    apply Forall_map, Forall_forall. intros row _.
    apply Forall_map, Forall_forall. intros x _. ring.
  - destruct (sample_like table g) as [noise g2].
    injection H as <- _. clear - Hz.
    revert noise. induction Hz as [|row table Hrow _ IH];
      intros [|keep noise]; simpl; constructor.
    + apply drop_row_zero; assumption.
    + apply IH.
Qed.

End ForwardFacts.

(** ** The sigmoid and the output range *)

Module RangeFacts.

Import Torch MatrixFactorizationModel.

Lemma sigmoid1_bounds (x : R) : 0 < sigmoid1 x < 1.
Proof.
  unfold sigmoid1. pose proof (exp_pos (- x)) as He.
  split.
  - apply Rdiv_lt_0_compat; lra.
  - apply Rmult_lt_reg_r with (1 + exp (- x)); [lra|].
    unfold Rdiv. rewrite Rmult_assoc, Rinv_l by lra. lra.
Qed.



(** The output-range step, element by element. *)
Lemma apply_y_range_squash (lo hi : R) (preds : tensor1) :
  apply_y_range (lo, hi) preds = map (squash lo hi) preds.
Proof.
  unfold apply_y_range, add_scalar, mul_scalar, sigmoid; simpl.
  rewrite !map_map. apply map_ext. intros s. unfold squash. ring.
Qed.

Lemma squash_within (lo hi s : R) : lo <= hi -> lo <= squash lo hi s <= hi.
Proof.
  intros H. unfold squash. pose proof (sigmoid1_bounds s). nra.
Qed.

Lemma squash_strictly_within (lo hi s : R) : lo < hi -> lo < squash lo hi s < hi.
Proof.
  intros H. unfold squash. pose proof (sigmoid1_bounds s). nra.
Qed.





End RangeFacts.

(** ** The example models are valid *)

Module ExampleFacts.

Import MatrixFactorizationModel.

Ltac valid_tables :=
  constructor; simpl;
  try (split; [reflexivity | repeat constructor]);
  try lra.

Lemma model_valid : valid_model Example.model.
Proof. valid_tables. Qed.

Lemma rated_valid : valid_model Example.rated.
Proof. valid_tables. Qed.

Lemma flat_valid : valid_model Example.flat.
Proof. valid_tables. Qed.

Lemma plain_valid : valid_model Example.plain.
Proof. valid_tables. Qed.

Lemma squashed_zero_valid : valid_model Example.squashed_zero.
Proof. valid_tables. Qed.

Lemma users_valid : Forall (valid_index 2) Example.users.
Proof. repeat constructor; unfold valid_index; simpl; lia. Qed.

Lemma items_valid : Forall (valid_index 3) Example.items.
Proof. repeat constructor; unfold valid_index; simpl; lia. Qed.

Lemma first_valid (n : nat) : Forall (valid_index (S n)) [0%Z].
Proof. repeat constructor; unfold valid_index; lia. Qed.

End ExampleFacts.

(** ** The scores that [forward] returns *)

Module ForwardSpec.

Import Torch MatrixFactorizationModel.

(** C1.  On a valid model with no output range and a batch of valid user
    and item indices of equal length, [forward] returns; the two dropout
    calls run on the looked-up user rows and then on the looked-up item
    rows; and the prediction at every position [k] of the batch, holding
    the pair [(u, i)], is the sum over the embedding dimension of the
    products of row [k] of the two dropout outputs, plus the user bias of
    [u], plus the item bias of [i]. *)
Theorem forward_score_without_range (self : t) (users items : list Z) (g : rng) :
  valid_model self -> y_range (hparams self) = None ->
  valid_users self users -> valid_items self items ->
  length users = length items ->
  exists dropped_users dropped_items g1 g2 preds,
    Torch.dropout (dropout self) (training self)
      (rows_at (user_embeddings self) users) g = Ok (dropped_users, g1) /\
    Torch.dropout (dropout self) (training self)
      (rows_at (item_embeddings self) items) g1 = Ok (dropped_items, g2) /\
    forward self users items g = Ok (preds, g2) /\
    forall k u i,
      nth_error users k = Some u -> nth_error items k = Some i ->
      nth_error preds k =
        Some (sum_row (zip_with Rmult (nth k dropped_users [])
                                      (nth k dropped_items []))
              + bias_at (user_biases self) u
              + bias_at (item_biases self) i).
Proof.
  intros Hv Hr Hu Hi Hlen.
  destruct (ForwardFacts.forward_pairs self users items g Hv Hu Hi Hlen)
    as (du & di & g1 & g2 & raw & Hdu & Hdi & Hf & _ & Hraw).
  rewrite Hr in Hf; simpl in Hf.
  exists du, di, g1, g2, raw. auto.
Qed.

Lemma forward_score_without_range_witness :
  exists dropped_users dropped_items g1 g2 preds,
    Torch.dropout (dropout Example.model) (training Example.model)
      (rows_at (user_embeddings Example.model) Example.users) Example.g
      = Ok (dropped_users, g1) /\
    Torch.dropout (dropout Example.model) (training Example.model)
      (rows_at (item_embeddings Example.model) Example.items) g1
      = Ok (dropped_items, g2) /\
    forward Example.model Example.users Example.items Example.g
      = Ok (preds, g2) /\
    forall k u i,
      nth_error Example.users k = Some u ->
      nth_error Example.items k = Some i ->
      nth_error preds k =
        Some (sum_row (zip_with Rmult (nth k dropped_users [])
                                      (nth k dropped_items []))
              + bias_at (user_biases Example.model) u
              + bias_at (item_biases Example.model) i).
Proof.
  apply (forward_score_without_range Example.model Example.users
           Example.items Example.g).
  - exact ExampleFacts.model_valid.
  - reflexivity.
  - exact ExampleFacts.users_valid.
  - exact ExampleFacts.items_valid.
  - reflexivity.
Defined.

(** C2.  On a valid model whose output range is [(lo, hi)] and a batch of
    valid indices of equal length, [forward] returns, and the prediction at
    every position [k], holding the pair [(u, i)], is
    [lo + sigmoid raw * (hi - lo)], where [raw] is the score of C1: the
    sum of the products of row [k] of the two dropout outputs, plus the
    two biases. *)
Theorem forward_score_with_range (self : t) (lo hi : R)
    (users items : list Z) (g : rng) :
  valid_model self -> y_range (hparams self) = Some (lo, hi) ->
  valid_users self users -> valid_items self items ->
  length users = length items ->
  exists dropped_users dropped_items g1 g2 preds,
    Torch.dropout (dropout self) (training self)
      (rows_at (user_embeddings self) users) g = Ok (dropped_users, g1) /\
    Torch.dropout (dropout self) (training self)
      (rows_at (item_embeddings self) items) g1 = Ok (dropped_items, g2) /\
    forward self users items g = Ok (preds, g2) /\
    forall k u i,
      nth_error users k = Some u -> nth_error items k = Some i ->
      nth_error preds k =
        Some (lo
              + sigmoid1
                  (sum_row (zip_with Rmult (nth k dropped_users [])
                                           (nth k dropped_items []))
                   + bias_at (user_biases self) u
                   + bias_at (item_biases self) i)
                * (hi - lo)).
Proof.
  intros Hv Hr Hu Hi Hlen.
  destruct (ForwardFacts.forward_pairs self users items g Hv Hu Hi Hlen)
    as (du & di & g1 & g2 & raw & Hdu & Hdi & Hf & _ & Hraw).
  rewrite Hr in Hf; simpl in Hf.
  rewrite RangeFacts.apply_y_range_squash in Hf.
  exists du, di, g1, g2, (map (squash lo hi) raw).
  repeat split; try assumption.
  intros k u i Hku Hki.
  apply (map_nth_error (squash lo hi)). eauto.
Qed.

Lemma forward_score_with_range_witness :
  exists dropped_users dropped_items g1 g2 preds,
    Torch.dropout (dropout Example.rated) (training Example.rated)
      (rows_at (user_embeddings Example.rated) Example.users) Example.g
      = Ok (dropped_users, g1) /\
    Torch.dropout (dropout Example.rated) (training Example.rated)
      (rows_at (item_embeddings Example.rated) Example.items) g1
      = Ok (dropped_items, g2) /\
    forward Example.rated Example.users Example.items Example.g
      = Ok (preds, g2) /\
    forall k u i,
      nth_error Example.users k = Some u ->
      nth_error Example.items k = Some i ->
      nth_error preds k =
        Some (1
              + sigmoid1
                  (sum_row (zip_with Rmult (nth k dropped_users [])
                                           (nth k dropped_items []))
                   + bias_at (user_biases Example.rated) u
                   + bias_at (item_biases Example.rated) i)
                * (5 - 1)).
Proof.
  apply (forward_score_with_range Example.rated 1 5 Example.users
           Example.items Example.g).
  - exact ExampleFacts.rated_valid.
  - reflexivity.
  - exact ExampleFacts.users_valid.
  - exact ExampleFacts.items_valid.
  - reflexivity.
Defined.

(** The bound of the range in exact real arithmetic.  On a valid model
    whose output range is [(lo, hi)] with [lo <= hi], and a batch of valid
    indices of equal length, [forward] returns, whatever the tables hold and
    whatever the draws, and every prediction, computed without rounding,
    lies in the closed interval from [lo] to [hi].  In float32 the bound
    fails: see [Float32Spec]. *)
Theorem predictions_within_range (self : t) (lo hi : R)
    (users items : list Z) (g : rng) :
  valid_model self -> y_range (hparams self) = Some (lo, hi) -> lo <= hi ->
  valid_users self users -> valid_items self items ->
  length users = length items ->
  exists preds g',
    forward self users items g = Ok (preds, g') /\
    Forall (fun p => lo <= p <= hi) preds.
Proof.
  intros Hv Hr Hle Hu Hi Hlen.
  destruct (ForwardFacts.forward_pairs self users items g Hv Hu Hi Hlen)
    as (du & di & g1 & g2 & raw & _ & _ & Hf & _ & _).
  rewrite Hr in Hf; simpl in Hf.
  rewrite RangeFacts.apply_y_range_squash in Hf.
  eexists _, _; split; [exact Hf|].
  apply Forall_map, Forall_forall. intros s _.
  apply RangeFacts.squash_within; assumption.
Qed.

Lemma predictions_within_range_witness :
  exists preds g',
    forward Example.rated Example.users Example.items Example.g
      = Ok (preds, g') /\
    Forall (fun p => 1 <= p <= 5) preds.
Proof.
  apply (predictions_within_range Example.rated 1 5 Example.users
           Example.items Example.g).
  - exact ExampleFacts.rated_valid.
  - reflexivity.
  - lra.
  - exact ExampleFacts.users_valid.
  - exact ExampleFacts.items_valid.
  - reflexivity.
Defined.

(** C10.  With [lo < hi] the endpoints are never attained: every
    prediction lies strictly between [lo] and [hi]. *)
Theorem predictions_strictly_within_range (self : t) (lo hi : R)
    (users items : list Z) (g : rng) :
  valid_model self -> y_range (hparams self) = Some (lo, hi) -> lo < hi ->
  valid_users self users -> valid_items self items ->
  length users = length items ->
  exists preds g',
    forward self users items g = Ok (preds, g') /\
    Forall (fun p => lo < p < hi) preds.
Proof.
  intros Hv Hr Hlt Hu Hi Hlen.
  destruct (ForwardFacts.forward_pairs self users items g Hv Hu Hi Hlen)
    as (du & di & g1 & g2 & raw & _ & _ & Hf & _ & _).
  rewrite Hr in Hf; simpl in Hf.
  rewrite RangeFacts.apply_y_range_squash in Hf.
  eexists _, _; split; [exact Hf|].
  apply Forall_map, Forall_forall. intros s _.
  apply RangeFacts.squash_strictly_within; assumption.
Qed.

Lemma predictions_strictly_within_range_witness :
  exists preds g',
    forward Example.rated Example.users Example.items Example.g
      = Ok (preds, g') /\
    Forall (fun p => 1 < p < 5) preds.
Proof.
  apply (predictions_strictly_within_range Example.rated 1 5 Example.users
           Example.items Example.g).
  - exact ExampleFacts.rated_valid.
  - reflexivity.
  - lra.
  - exact ExampleFacts.users_valid.
  - exact ExampleFacts.items_valid.
  - reflexivity.
Defined.

(** C6.  On a valid model and a batch of valid user and item indices of
    equal length [n], the empty batch included, [forward] returns a
    one-dimensional tensor of length [n]. *)
Theorem forward_length (self : t) (users items : list Z) (g : rng) :
  valid_model self -> valid_users self users -> valid_items self items ->
  length users = length items ->
  exists preds g',
    forward self users items g = Ok (preds, g') /\
    length preds = length users.
Proof.
  intros Hv Hu Hi Hlen.
  destruct (ForwardFacts.forward_pairs self users items g Hv Hu Hi Hlen)
    as (du & di & g1 & g2 & raw & _ & _ & Hf & Hraw & _).
  eexists _, _; split; [exact Hf|].
  destruct (y_range (hparams self)) as [[lo hi]|]; simpl; [|assumption].
  rewrite RangeFacts.apply_y_range_squash, length_map. assumption.
Qed.

Lemma forward_length_witness :
  exists preds g',
    forward Example.rated [] [] Example.g = Ok (preds, g') /\
    length preds = 0%nat.
Proof.
  apply (forward_length Example.rated [] [] Example.g).
  - exact ExampleFacts.rated_valid.
  - constructor.
  - constructor.
  - reflexivity.
Defined.



End ForwardSpec.

(** ** The bound of the output range in float32 *)

Module Float32Spec.

Import Float32.

(** C3.  As [forward] computes it, in float32, a prediction can exceed the
    upper end of its range.  Take the range [(-1000.0, 3 * 2 ** -16)], whose
    ends are in order, and a raw score of 100: in evaluation mode, one user
    row [[10]], one item row [[10]] and zero biases give
    [10 * 10 + 0 + 0 = 100].  The float32 exponential of [-100] is 26 or 27
    units of [2 ** -149], or zero where small values are flushed; in each
    case [1 + exp (-100)] rounds to [1] and the sigmoid is [1.0].  The
    difference of the ends, [1000 + 3 * 2 ** -16], rounds up to the float32
    [1000 + 2 ** -14], so that the prediction is
    [1.0 * (1000 + 2 ** -14) + (-1000) = 2 ** -14], above the upper end
    [3 * 2 ** -16]. *)
Theorem float32_prediction_exceeds_range :
  leb64 (fst Example.narrow_top) (snd Example.narrow_top) = true /\
  add32 (add32 (mul32 (dyadic32 10 0) (dyadic32 10 0)) (dyadic32 0 0))
        (dyadic32 0 0) = dyadic32 100 0 /\
  sigmoid_kernel32 (dyadic32 26 (-149)) = one32 /\
  sigmoid_kernel32 (dyadic32 27 (-149)) = one32 /\
  sigmoid_kernel32 (dyadic32 0 0) = one32 /\
  round32 (sub64 (snd Example.narrow_top) (fst Example.narrow_top))
    = dyadic32 16384001 (-14) /\
  apply_y_range32 Example.narrow_top [one32] = [dyadic32 1 (-14)] /\
  ltb64 (snd Example.narrow_top) (widen (dyadic32 1 (-14))) = true /\
  within Example.narrow_top (dyadic32 1 (-14)) = false.
Proof. vm_compute. repeat split. Qed.

(** The same happens with the everyday range [(0.1, 0.7)]: at a sigmoid of
    [1.0] the prediction is the float32 [11744052 * 2 ** -24], the one just
    above [0.7]. *)
Example float32_tenths_exceed :
  leb64 (fst Example.tenths) (snd Example.tenths) = true /\
  apply_y_range32 Example.tenths [one32] = [dyadic32 11744052 (-24)] /\
  ltb64 (snd Example.tenths) (widen (dyadic32 11744052 (-24))) = true /\
  within Example.tenths (dyadic32 11744052 (-24)) = false.
Proof. vm_compute. repeat split. Qed.

(** With ends that float32 holds exactly and whose difference it holds
    exactly, such as [(1.0, 5.0)], a sigmoid of [1.0] gives the upper end
    itself. *)
Example float32_one_to_five :
  apply_y_range32 (dyadic64 1 0, dyadic64 5 0) [one32] = [dyadic32 5 0] /\
  within (dyadic64 1 0, dyadic64 5 0) (dyadic32 5 0) = true.
Proof. vm_compute. repeat split. Qed.

End Float32Spec.

(** ** Special cases of the score *)

Module ScoreSpec.

Import Torch MatrixFactorizationModel.

Lemma sigmoid1_zero : sigmoid1 0 = 1 / 2.
Proof. unfold sigmoid1. rewrite Ropp_0, exp_0. lra. Qed.

(** What [forward] returns on the all-zero model with range [(0, 1)]. *)
Lemma forward_squashed_zero :
  forward Example.squashed_zero [0%Z] [0%Z] Example.g
  = Ok ([1 / 2], Example.g).
Proof.
  rewrite ForwardFacts.forward_dropout_disabled.
  - unfold raw_scores, finish, apply_y_range, add_scalar, mul_scalar,
      sigmoid, sum_axis1, sum_row, bias_at, row_at; simpl.
    replace (0 * 0 + 0 + 0 + 0) with 0 by ring.
    rewrite sigmoid1_zero. do 3 f_equal. lra.
  - exact ExampleFacts.squashed_zero_valid.
  - left; reflexivity.
  - exact (ExampleFacts.first_valid 0).
  - exact (ExampleFacts.first_valid 0).
  - reflexivity.
Qed.

Lemma squashed_zero_tables :
  all_zero (user_biases Example.squashed_zero) /\
  all_zero (item_biases Example.squashed_zero) /\
  all_zero (user_embeddings Example.squashed_zero) /\
  all_zero (item_embeddings Example.squashed_zero).
Proof. unfold all_zero; simpl. repeat split; repeat constructor. Qed.

(** C4, as stated, fails once an output range is configured.  On the model
    of one user and one item whose four tables are zero, with dropout
    probability zero, evaluation mode and range [(0, 1)], all hypotheses of
    the claim hold at the pair [(0, 0)]; [forward] returns [1 / 2], the
    sigmoid of the zero score, and the dot product of the two rows is
    [0]. *)
Lemma dot_product_score_counterexample :
  valid_model Example.squashed_zero /\
  (dropout Example.squashed_zero = 0 /\
   training Example.squashed_zero = false) /\
  all_zero (user_biases Example.squashed_zero) /\
  all_zero (item_biases Example.squashed_zero) /\
  valid_users Example.squashed_zero [0%Z] /\
  valid_items Example.squashed_zero [0%Z] /\
  forward Example.squashed_zero [0%Z] [0%Z] Example.g
    = Ok ([1 / 2], Example.g) /\
  dot (row_at (user_embeddings Example.squashed_zero) 0)
      (row_at (item_embeddings Example.squashed_zero) 0) = 0 /\
  1 / 2 <> 0.
Proof.
  split; [exact ExampleFacts.squashed_zero_valid|].
  split; [split; reflexivity|].
  split; [apply squashed_zero_tables|].
  split; [apply squashed_zero_tables|].
  split; [exact (ExampleFacts.first_valid 0)|].
  split; [exact (ExampleFacts.first_valid 0)|].
  split; [exact forward_squashed_zero|].
  split; [|lra].
  unfold dot, sum_row, row_at; simpl. ring.
Qed.

(** C4, amended.  On a valid model with no output range, with dropout
    disabled (probability zero, or evaluation mode) and both bias tables
    zero, [forward] on a batch of valid indices of equal length returns at
    every position the dot product of the user row and the item row of the
    pair at that position. *)
Theorem dot_product_score (self : t) (users items : list Z) (g : rng) :
  valid_model self -> y_range (hparams self) = None ->
  dropout self = 0 \/ training self = false ->
  all_zero (user_biases self) -> all_zero (item_biases self) ->
  valid_users self users -> valid_items self items ->
  length users = length items ->
  exists preds,
    forward self users items g = Ok (preds, g) /\
    forall k u i,
      nth_error users k = Some u -> nth_error items k = Some i ->
      nth_error preds k =
        Some (dot (row_at (user_embeddings self) u)
                  (row_at (item_embeddings self) i)).
Proof.
  intros Hv Hr Hoff Hzu Hzi Hu Hi Hlen.
  rewrite (ForwardFacts.forward_dropout_disabled self users items g Hv Hoff
             Hu Hi Hlen).
  rewrite Hr; simpl.
  eexists; split; [reflexivity|].
  intros k u i Hku Hki.
  rewrite (ForwardFacts.raw_scores_nth self users items _ _ k u i
             (row_at (user_embeddings self) u)
             (row_at (item_embeddings self) i)); try assumption.
  - rewrite !ForwardFacts.bias_at_zero by assumption.
    unfold dot. f_equal. ring.
  - unfold rows_at. apply map_nth_error; assumption.
  - unfold rows_at. apply map_nth_error; assumption.
Qed.

Lemma plain_biases :
  all_zero (user_biases Example.plain) /\ all_zero (item_biases Example.plain).
Proof. unfold all_zero; simpl. split; repeat constructor. Qed.

Lemma dot_product_score_witness :
  exists preds,
    forward Example.plain Example.users Example.items Example.g
      = Ok (preds, Example.g) /\
    forall k u i,
      nth_error Example.users k = Some u ->
      nth_error Example.items k = Some i ->
      nth_error preds k =
        Some (dot (row_at (user_embeddings Example.plain) u)
                  (row_at (item_embeddings Example.plain) i)).
Proof.
  apply (dot_product_score Example.plain Example.users Example.items Example.g).
  - exact ExampleFacts.plain_valid.
  - reflexivity.
  - left; reflexivity.
  - exact (proj1 plain_biases).
  - exact (proj2 plain_biases).
  - exact ExampleFacts.users_valid.
  - exact ExampleFacts.items_valid.
  - reflexivity.
Defined.

(** C7, as stated, fails once an output range is configured.  On the same
    all-zero model with range [(0, 1)], both embedding tables are zero and
    [forward] returns [1 / 2] at the pair [(0, 0)], while the two biases
    sum to [0]. *)
Lemma bias_only_score_counterexample :
  valid_model Example.squashed_zero /\
  all_zero (user_embeddings Example.squashed_zero) /\
  all_zero (item_embeddings Example.squashed_zero) /\
  valid_users Example.squashed_zero [0%Z] /\
  valid_items Example.squashed_zero [0%Z] /\
  forward Example.squashed_zero [0%Z] [0%Z] Example.g
    = Ok ([1 / 2], Example.g) /\
  bias_at (user_biases Example.squashed_zero) 0
  + bias_at (item_biases Example.squashed_zero) 0 = 0 /\
  1 / 2 <> 0.
Proof.
  split; [exact ExampleFacts.squashed_zero_valid|].
  split; [apply squashed_zero_tables|].
  split; [apply squashed_zero_tables|].
  split; [exact (ExampleFacts.first_valid 0)|].
  split; [exact (ExampleFacts.first_valid 0)|].
  split; [exact forward_squashed_zero|].
  split; [|lra].
  unfold bias_at, row_at; simpl. ring.
Qed.

(** C7, amended.  On a valid model with no output range whose two
    embedding tables are zero, in either mode and whatever the draws,
    [forward] on a batch of valid indices of equal length returns at every
    position the user bias plus the item bias of the pair at that
    position. *)
Theorem bias_only_score (self : t) (users items : list Z) (g : rng) :
  valid_model self -> y_range (hparams self) = None ->
  all_zero (user_embeddings self) -> all_zero (item_embeddings self) ->
  valid_users self users -> valid_items self items ->
  length users = length items ->
  exists preds g',
    forward self users items g = Ok (preds, g') /\
    forall k u i,
      nth_error users k = Some u -> nth_error items k = Some i ->
      nth_error preds k =
        Some (bias_at (user_biases self) u + bias_at (item_biases self) i).
Proof.
  intros Hv Hr Hzu Hzi Hu Hi Hlen.
  destruct (ForwardFacts.forward_pairs self users items g Hv Hu Hi Hlen)
    as (du & di & g1 & g2 & raw & Hdu & Hdi & Hf & _ & Hraw).
  rewrite Hr in Hf; simpl in Hf.
  exists raw, g2. split; [exact Hf|].
  intros k u i Hku Hki.
  rewrite (Hraw k u i Hku Hki).
  rewrite ForwardFacts.sum_row_zero_product.
  - f_equal. ring.
  - apply ForwardFacts.all_zero_nth.
    eapply ForwardFacts.dropout_all_zero; [exact Hdu|].
    apply ForwardFacts.all_zero_rows_at; assumption.
Qed.

Lemma flat_embeddings :
  all_zero (user_embeddings Example.flat) /\
  all_zero (item_embeddings Example.flat).
Proof. unfold all_zero; simpl. split; repeat constructor. Qed.

Lemma bias_only_score_witness :
  exists preds g',
    forward Example.flat Example.users Example.items Example.g
      = Ok (preds, g') /\
    forall k u i,
      nth_error Example.users k = Some u ->
      nth_error Example.items k = Some i ->
      nth_error preds k =
        Some (bias_at (user_biases Example.flat) u
              + bias_at (item_biases Example.flat) i).
Proof.
  apply (bias_only_score Example.flat Example.users Example.items Example.g).
  - exact ExampleFacts.flat_valid.
  - reflexivity.
  - exact (proj1 flat_embeddings).
  - exact (proj2 flat_embeddings).
  - exact ExampleFacts.users_valid.
  - exact ExampleFacts.items_valid.
  - reflexivity.
Defined.

End ScoreSpec.

(** ** Dropout *)

Module DropoutSpec.

Import Torch MatrixFactorizationModel.

(** C5.  On a valid model and a batch of valid indices of equal length,
    the two dropout calls of [forward] take the looked-up user rows and
    the looked-up item rows; the result of [forward] is built from their
    two outputs and from the entries of the bias tables as they stand, and
    the draws read are those of the two calls.  When the model is not in
    training mode, a dropout call returns its input and reads no draw, so
    [forward] scores the looked-up rows themselves. *)
Theorem dropout_on_embeddings_only (self : t) (users items : list Z) (g : rng) :
  valid_model self -> valid_users self users -> valid_items self items ->
  length users = length items ->
  (exists dropped_users dropped_items g1 g2,
     Torch.dropout (dropout self) (training self)
       (rows_at (user_embeddings self) users) g = Ok (dropped_users, g1) /\
     Torch.dropout (dropout self) (training self)
       (rows_at (item_embeddings self) items) g1 = Ok (dropped_items, g2) /\
     forward self users items g =
       Ok (finish (y_range (hparams self))
             (zip_with Rplus
                (zip_with Rplus
                   (sum_axis1
                      (zip_with (zip_with Rmult) dropped_users dropped_items))
                   (map (bias_at (user_biases self)) users))
                (map (bias_at (item_biases self)) items)), g2)) /\
  (training self = false ->
     (forall (table : tensor2) (g0 : rng),
        Torch.dropout (dropout self) (training self) table g0 = Ok (table, g0)) /\
     forward self users items g =
       Ok (finish (y_range (hparams self))
             (zip_with Rplus
                (zip_with Rplus
                   (sum_axis1
                      (zip_with (zip_with Rmult)
                         (rows_at (user_embeddings self) users)
                         (rows_at (item_embeddings self) items)))
                   (map (bias_at (user_biases self)) users))
                (map (bias_at (item_biases self)) items)), g)).
Proof.
  intros Hv Hu Hi Hlen. split.
  - destruct (ForwardFacts.forward_run self users items g Hv Hu Hi Hlen)
      as (du & di & g1 & g2 & Hdu & Hdi & _ & _ & _ & Hf).
    exists du, di, g1, g2. repeat split; assumption.
  - intros Heval. split.
    + intros table g0. apply TorchFacts.dropout_disabled; [apply Hv | auto].
    + apply (ForwardFacts.forward_dropout_disabled self users items g);
        auto.
Qed.

Lemma dropout_on_embeddings_only_witness :
  training (eval Example.model) = false /\
  forward (eval Example.model) Example.users Example.items Example.g =
    Ok (finish (y_range (hparams (eval Example.model)))
          (zip_with Rplus
             (zip_with Rplus
                (sum_axis1
                   (zip_with (zip_with Rmult)
                      (rows_at (user_embeddings (eval Example.model))
                         Example.users)
                      (rows_at (item_embeddings (eval Example.model))
                         Example.items)))
                (map (bias_at (user_biases (eval Example.model)))
                   Example.users))
             (map (bias_at (item_biases (eval Example.model)))
                Example.items)), Example.g).
Proof.
  split; [reflexivity|].
  apply (dropout_on_embeddings_only (eval Example.model) Example.users
           Example.items Example.g).
  - destruct ExampleFacts.model_valid; constructor; assumption.
  - exact ExampleFacts.users_valid.
  - exact ExampleFacts.items_valid.
  - reflexivity.
  - reflexivity.
Defined.

End DropoutSpec.

(** ** Setup *)

Module SetupSpec.

Import MatrixFactorizationModel.

Lemma ZeroEmbedding_rows (n d : nat) :
  length (Base.ZeroEmbedding n d) = n /\
  Forall (fun row => length row = d /\ Forall (fun x => x = 0) row)
    (Base.ZeroEmbedding n d).
Proof.
  unfold Base.ZeroEmbedding. split; [apply repeat_length|].
  apply Forall_forall. intros row Hin. apply repeat_spec in Hin. subst row.
  split; [apply repeat_length|].
  apply Forall_forall. intros x Hx. apply repeat_spec in Hx. assumption.
Qed.

Lemma ScaledEmbedding_rows (n d : nat) (init : nat -> nat -> R) :
  length (Base.ScaledEmbedding n d init) = n /\
  Forall (fun row => length row = d) (Base.ScaledEmbedding n d init).
Proof.
  unfold Base.ScaledEmbedding. split.
  - rewrite length_map. apply length_seq.
  - apply Forall_map, Forall_forall. intros r _.
    rewrite length_map. apply length_seq.
Qed.

Lemma nn_Dropout_accepts (p : R) : 0 <= p <= 1 -> nn_Dropout p = Ok p.
Proof.
  intros [H0 H1]. unfold nn_Dropout.
  destruct (Rlt_dec p 0); [lra|].
  destruct (Rlt_dec 1 p); [lra|]. reflexivity.
Qed.

(** Setup with an accepted dropout probability returns a valid model. *)
Lemma setup_valid (hp : HParams) (init_users init_items : nat -> nat -> R)
    (tr : bool) :
  0 <= dropout_p hp <= 1 ->
  exists self,
    _setup_model hp init_users init_items tr = Ok self /\
    hparams self = hp /\ training self = tr /\ valid_model self.
Proof.
  intros Hp. unfold _setup_model.
  rewrite (nn_Dropout_accepts _ Hp); simpl.
  eexists; split; [reflexivity|]. split; [reflexivity|]. split; [reflexivity|].
  constructor; simpl; try assumption.
  - apply ScaledEmbedding_rows.
  - apply ScaledEmbedding_rows.
  - destruct (ZeroEmbedding_rows (num_users hp) 1) as [Hl Hr].
    split; [assumption|]. eapply Forall_impl; [|exact Hr]. intros ? [? _]; assumption.
  - destruct (ZeroEmbedding_rows (num_items hp) 1) as [Hl Hr].
    split; [assumption|]. eapply Forall_impl; [|exact Hr]. intros ? [? _]; assumption.
Qed.

(** C9.  Setup with a dropout probability that the dropout layer accepts
    returns a model whose user bias table has [num_users] rows of one
    entry, whose item bias table has [num_items] rows of one entry, and
    whose bias entries are all zero. *)
Theorem setup_bias_tables (hp : HParams)
    (init_users init_items : nat -> nat -> R) (tr : bool) :
  0 <= dropout_p hp <= 1 ->
  exists self,
    _setup_model hp init_users init_items tr = Ok self /\
    length (user_biases self) = num_users hp /\
    Forall (fun row => length row = 1%nat /\ Forall (fun x => x = 0) row)
      (user_biases self) /\
    length (item_biases self) = num_items hp /\
    Forall (fun row => length row = 1%nat /\ Forall (fun x => x = 0) row)
      (item_biases self).
Proof.
  intros Hp. unfold _setup_model.
  rewrite (nn_Dropout_accepts _ Hp); simpl.
  eexists; split; [reflexivity|]. simpl.
  destruct (ZeroEmbedding_rows (num_users hp) 1) as [Hlu Hru].
  destruct (ZeroEmbedding_rows (num_items hp) 1) as [Hli Hri].
  repeat split; assumption.
Qed.

Lemma setup_bias_tables_witness :
  exists self,
    _setup_model Example.hp (fun r c => INR (r + c)) (fun r c => INR (r * c))
      true = Ok self /\
    length (user_biases self) = 2%nat /\
    Forall (fun row => length row = 1%nat /\ Forall (fun x => x = 0) row)
      (user_biases self) /\
    length (item_biases self) = 3%nat /\
    Forall (fun row => length row = 1%nat /\ Forall (fun x => x = 0) row)
      (item_biases self).
Proof.
  apply (setup_bias_tables Example.hp (fun r c => INR (r + c))
           (fun r c => INR (r * c)) true).
  simpl. lra.
Defined.

End SetupSpec.

(** ** A run in training mode *)

Module ExampleRun.

Import Torch MatrixFactorizationModel.

Lemma dropout_training (p : R) (table : tensor2) (g : rng) :
  0 < p < 1 ->
  Torch.dropout p true table g =
    Ok (zip_with (zip_with (drop_elem p)) table (fst (sample_like table g)),
        snd (sample_like table g)).
Proof.
  intros [H0 H1]. unfold Torch.dropout.
  destruct (Rlt_dec p 0); [lra|].
  destruct (Rlt_dec 1 p); [lra|]. simpl.
  destruct (Req_dec_T p 0); [lra|].
  destruct (Req_dec_T p 1); [lra|].
  destruct (sample_like table g); reflexivity.
Qed.

(** The example model on the pairs [(0, 2)] and [(1, 0)], with draws that
    keep the first entry of every row and drop the second: the kept
    entries are doubled, and the biases enter as they are. *)
Example forward_example_model :
  forward Example.model Example.users Example.items Example.g
  = Ok ([2 * 2 + 1 / 2 + 2; 6 * 2 + -1 + 0], mk_rng Nat.even 8).
Proof.
  unfold forward, bind, lift; simpl.
  rewrite !dropout_training by lra. simpl.
  unfold ret, drop_elem. do 2 f_equal.
  f_equal; [field|]. f_equal. field.
Qed.

(** An index past the last row of its table raises, as does a negative
    one. *)
Example forward_index_error :
  forward Example.model [5%Z] [0%Z] Example.g = Raise IndexError /\
  forward Example.model [0%Z] [(-1)%Z] Example.g = Raise IndexError.
Proof. split; reflexivity. Qed.

(** Batches of lengths two and three cannot be broadcast together. *)
Example forward_shape_error :
  forward (eval Example.model) [0%Z; 1%Z] [0%Z; 1%Z; 2%Z] Example.g
  = Raise RuntimeError.
Proof.
  unfold forward, bind, lift; simpl.
  rewrite !TorchFacts.dropout_disabled by (try (simpl; lra); auto).
  reflexivity.
Qed.

End ExampleRun.

(** * Further properties *)

(** ** Broadcasting *)

Module BroadcastFacts.

Import Torch TorchFacts MatrixFactorizationModel.

Lemma broadcast_single_left {A B : Type} (f : A -> A -> B) (x : A) (ys : list A) :
  broadcast f [x] ys = Ok (map (f x) ys).
Proof. destruct ys as [|y [|y' ys]]; reflexivity. Qed.

Lemma broadcast_single_right {A B : Type} (f : A -> A -> B) (xs : list A) (y : A) :
  broadcast f xs [y] = Ok (map (fun x => f x y) xs).
Proof. destruct xs as [|x [|x' xs]]; reflexivity. Qed.

Lemma broadcast_incompatible {A B : Type} (f : A -> A -> B) (xs ys : list A) :
  length xs <> length ys -> length xs <> 1%nat -> length ys <> 1%nat ->
  broadcast f xs ys = Raise RuntimeError.
Proof.
  intros Hne Hx Hy. unfold broadcast.
  destruct (Nat.eqb_spec (length xs) (length ys)); [contradiction|].
  destruct xs as [|x [|x' xs]], ys as [|y [|y' ys]]; simpl in *;
    try reflexivity; contradiction.
Qed.

Lemma sequence_map_ok {A B : Type} (f : A -> result B) (h : A -> B) (xs : list A) :
  Forall (fun x => f x = Ok (h x)) xs -> sequence (map f xs) = Ok (map h xs).
Proof.
  induction 1 as [|x xs Hx _ IH]; simpl; [reflexivity|].
  rewrite Hx; simpl. rewrite IH. reflexivity.
Qed.

Lemma mul_single_left (r : list R) (b : tensor2) :
  Forall (fun r' => length r' = length r) b ->
  mul [r] b = Ok (map (zip_with Rmult r) b).
Proof.
  intros H. unfold mul. rewrite broadcast_single_left. simpl.
  apply sequence_map_ok. eapply Forall_impl; [|exact H].
  intros r' Hr'. apply broadcast_same_length. congruence.
Qed.

Lemma mul_single_right (a : tensor2) (r : list R) :
  Forall (fun r' => length r' = length r) a ->
  mul a [r] = Ok (map (fun r' => zip_with Rmult r' r) a).
Proof.
  intros H. unfold mul. rewrite broadcast_single_right. simpl.
  apply (sequence_map_ok (fun x => broadcast Rmult x r)).
  eapply Forall_impl; [|exact H].
  intros r' Hr'. apply broadcast_same_length. assumption.
Qed.

Lemma mul_incompatible (a b : tensor2) :
  length a <> length b -> length a <> 1%nat -> length b <> 1%nat ->
  mul a b = Raise RuntimeError.
Proof.
  intros. unfold mul. rewrite broadcast_incompatible by assumption. reflexivity.
Qed.

Lemma same_shape_rows_width {A B : Type} (d : nat)
    (a : list (list A)) (b : list (list B)) :
  same_shape a b -> Forall (fun r => length r = d) a ->
  Forall (fun r => length r = d) b.
Proof.
  induction 1 as [|r r' a b Hr _ IH]; intros Ha; constructor;
    inversion Ha; subst; [congruence | auto].
Qed.

(** A lookup returns the rows of its batch, or raises on the first index
    outside the table. *)
Lemma embedding_outcome (n : nat) (table : tensor2) (idx : list Z) :
  length table = n ->
  (Forall (valid_index n) idx /\ embedding table idx = Ok (rows_at table idx)) \/
  (some_invalid n idx /\ embedding table idx = Raise IndexError).
Proof.
  intros Hlen. induction idx as [|i idx IH].
  - left. split; [constructor | reflexivity].
  - assert (Hi : valid_index n i \/ ~ valid_index n i)
      by (unfold valid_index; lia).
    destruct Hi as [Hi | Hi].
    + destruct IH as [[Hall Hok] | [Hbad Herr]].
      * left. split; [constructor; assumption|].
        apply (ForwardFacts.embedding_rows_at n); [assumption|].
        constructor; assumption.
      * right. split; [apply Exists_cons_tl; assumption|].
        unfold embedding in *. simpl.
        rewrite embedding_row_valid by (rewrite Hlen; exact Hi).
        simpl. rewrite Herr. reflexivity.
    + right. split; [apply Exists_cons_hd; assumption|].
      unfold embedding. simpl. unfold embedding_row.
      destruct (Z.ltb_spec i 0); [reflexivity|].
      destruct (nth_error table (Z.to_nat i)) eqn:E; [|reflexivity].
      exfalso. apply Hi. unfold valid_index. split; [assumption|].
      assert (Z.to_nat i < length table)%nat
        by (apply nth_error_Some; congruence).
      lia.
Qed.

Lemma some_invalid_not_valid (n : nat) (idx : list Z) :
  some_invalid n idx -> ~ Forall (valid_index n) idx.
Proof.
  intros Hbad Hall. unfold some_invalid in Hbad.
  rewrite Exists_exists in Hbad. destruct Hbad as (i & Hin & Hi).
  rewrite Forall_forall in Hall. auto.
Qed.

(** With valid indices, [forward] is its two dropout calls followed by the
    pure steps, whatever the two batch lengths. *)
Lemma forward_stages (self : t) (users items : list Z) (g : rng) :
  valid_model self -> valid_users self users -> valid_items self items ->
  exists dropped_users dropped_items g1 g2,
    Torch.dropout (dropout self) (training self)
      (rows_at (user_embeddings self) users) g = Ok (dropped_users, g1) /\
    Torch.dropout (dropout self) (training self)
      (rows_at (item_embeddings self) items) g1 = Ok (dropped_items, g2) /\
    length dropped_users = length users /\
    length dropped_items = length items /\
    Forall (fun r => length r = embedding_dim (hparams self)) dropped_users /\
    Forall (fun r => length r = embedding_dim (hparams self)) dropped_items /\
    forward self users items g =
      lift (combine_scores self users items dropped_users dropped_items) g2.
Proof.
  intros [[Hue Hue'] [Hie Hie'] [Hub Hub'] [Hib Hib'] Hp] Hu Hi.
  unfold valid_users in Hu. unfold valid_items in Hi.
  destruct (dropout_total (dropout self) (training self)
              (rows_at (user_embeddings self) users) g Hp)
    as (du & g1 & Hdu & Hsu).
  destruct (dropout_total (dropout self) (training self)
              (rows_at (item_embeddings self) items) g1 Hp)
    as (di & g2 & Hdi & Hsi).
  exists du, di, g1, g2.
  split; [assumption|]. split; [assumption|].
  split; [rewrite <- (same_shape_length _ _ Hsu); apply length_map|].
  split; [rewrite <- (same_shape_length _ _ Hsi); apply length_map|].
  split; [eapply same_shape_rows_width; [exact Hsu|];
          eapply ForwardFacts.rows_at_width; eauto|].
  split; [eapply same_shape_rows_width; [exact Hsi|];
          eapply ForwardFacts.rows_at_width; eauto|].
  unfold forward, bind, lift, combine_scores.
  rewrite (ForwardFacts.embedding_rows_at _ _ _ Hue Hu).
  rewrite (ForwardFacts.embedding_rows_at _ _ _ Hie Hi).
  rewrite Hdu, Hdi.
  destruct (mul du di) as [product|e]; simpl; [|reflexivity].
  rewrite (ForwardFacts.bias_lookup _ _ _ Hub Hub' Hu).
  destruct (add (sum_axis1 product) (map (bias_at (user_biases self)) users))
    as [partial|e]; simpl; [|reflexivity].
  rewrite (ForwardFacts.bias_lookup _ _ _ Hib Hib' Hi).
  destruct (add partial (map (bias_at (item_biases self)) items))
    as [preds|e]; simpl; [|reflexivity].
  unfold ret. destruct (y_range (hparams self)); reflexivity.
Qed.

End BroadcastFacts.

(** ** A single index against a batch *)

Module SingleFacts.

Import Torch TorchFacts MatrixFactorizationModel.

Lemma finish_length (range : option (R * R)) (preds : tensor1) :
  length (finish range preds) = length preds.
Proof.
  destruct range as [[lo hi]|]; simpl; [|reflexivity].
  rewrite RangeFacts.apply_y_range_squash. apply length_map.
Qed.

Lemma singleton_list {A : Type} (xs : list A) :
  length xs = 1%nat -> exists x, xs = [x].
Proof.
  destruct xs as [|x [|y xs]]; simpl; intros H; try discriminate.
  exists x; reflexivity.
Qed.

(** One user, any number of items. *)
Lemma forward_single_user_run (self : t) (u : Z) (items : list Z) (g : rng) :
  valid_model self -> valid_users self [u] -> valid_items self items ->
  exists dropped_user dropped_items g1 g2,
    Torch.dropout (dropout self) (training self)
      (rows_at (user_embeddings self) [u]) g = Ok ([dropped_user], g1) /\
    Torch.dropout (dropout self) (training self)
      (rows_at (item_embeddings self) items) g1 = Ok (dropped_items, g2) /\
    length dropped_items = length items /\
    forward self [u] items g =
      Ok (finish (y_range (hparams self))
            (zip_with Rplus
               (map (fun x => x + bias_at (user_biases self) u)
                  (sum_axis1 (map (zip_with Rmult dropped_user) dropped_items)))
               (map (bias_at (item_biases self)) items)), g2).
Proof.
  intros Hv Hu Hi.
  destruct (BroadcastFacts.forward_stages self [u] items g Hv Hu Hi)
    as (du & di & g1 & g2 & Hdu & Hdi & Hlu & Hli & Hwu & Hwi & Hf).
  destruct (singleton_list du Hlu) as [ru ->].
  exists ru, di, g1, g2.
  split; [assumption|]. split; [assumption|]. split; [assumption|].
  rewrite Hf. unfold combine_scores.
  rewrite BroadcastFacts.mul_single_left.
  2:{ inversion Hwu; subst. eapply Forall_impl; [|exact Hwi].
      simpl. intros; congruence. }
  simpl. unfold add at 1. rewrite BroadcastFacts.broadcast_single_right. simpl.
  rewrite add_same_length.
  - reflexivity.
  - unfold sum_axis1. rewrite !length_map. assumption.
Qed.

(** Any number of users, one item. *)
Lemma forward_single_item_run (self : t) (users : list Z) (i : Z) (g : rng) :
  valid_model self -> valid_users self users -> valid_items self [i] ->
  exists dropped_users dropped_item g1 g2,
    Torch.dropout (dropout self) (training self)
      (rows_at (user_embeddings self) users) g = Ok (dropped_users, g1) /\
    Torch.dropout (dropout self) (training self)
      (rows_at (item_embeddings self) [i]) g1 = Ok ([dropped_item], g2) /\
    length dropped_users = length users /\
    forward self users [i] g =
      Ok (finish (y_range (hparams self))
            (map (fun x => x + bias_at (item_biases self) i)
               (zip_with Rplus
                  (sum_axis1
                     (map (fun r => zip_with Rmult r dropped_item) dropped_users))
                  (map (bias_at (user_biases self)) users))), g2).
Proof.
  intros Hv Hu Hi.
  destruct (BroadcastFacts.forward_stages self users [i] g Hv Hu Hi)
    as (du & di & g1 & g2 & Hdu & Hdi & Hlu & Hli & Hwu & Hwi & Hf).
  destruct (singleton_list di Hli) as [ri ->].
  exists du, ri, g1, g2.
  split; [assumption|]. split; [assumption|]. split; [assumption|].
  rewrite Hf. unfold combine_scores.
  rewrite BroadcastFacts.mul_single_right.
  2:{ inversion Hwi; subst. eapply Forall_impl; [|exact Hwu].
      simpl. intros; congruence. }
  simpl. rewrite add_same_length.
  2:{ unfold sum_axis1. rewrite !length_map. assumption. }
  simpl. unfold add. rewrite BroadcastFacts.broadcast_single_right. reflexivity.
Qed.

(** What [forward] does, by the validity of the indices and the two batch
    lengths. *)
Lemma forward_outcome (self : t) (users items : list Z) (g : rng) :
  valid_model self ->
  ((some_invalid (num_users (hparams self)) users \/
    some_invalid (num_items (hparams self)) items) /\
   forward self users items g = Raise IndexError) \/
  (valid_users self users /\ valid_items self items /\
   ~ broadcastable (length users) (length items) /\
   forward self users items g = Raise RuntimeError) \/
  (valid_users self users /\ valid_items self items /\
   broadcastable (length users) (length items) /\
   exists preds g',
     forward self users items g = Ok (preds, g') /\
     length preds = broadcast_length (length users) (length items)).
Proof.
  intros Hv.
  destruct (BroadcastFacts.embedding_outcome (num_users (hparams self))
              (user_embeddings self) users) as [[Hu Hue] | [Hu Hue]];
    [apply Hv | |].
  2:{ left. split; [left; assumption|].
      unfold forward, bind, lift. rewrite Hue. reflexivity. }
  destruct (BroadcastFacts.embedding_outcome (num_items (hparams self))
              (item_embeddings self) items) as [[Hi Hie] | [Hi Hie]];
    [apply Hv | |].
  2:{ left. split; [right; assumption|].
      unfold forward, bind, lift. rewrite Hue, Hie. reflexivity. }
  right.
  destruct (Nat.eq_dec (length users) (length items)) as [Heq | Hne].
  { right. split; [assumption|]. split; [assumption|].
    split; [left; assumption|].
    destruct (ForwardFacts.forward_pairs self users items g Hv Hu Hi Heq)
      as (du & di & g1 & g2 & raw & _ & _ & Hf & Hraw & _).
    eexists _, _. split; [exact Hf|].
    rewrite finish_length, Hraw. unfold broadcast_length.
    destruct (Nat.eqb_spec (length users) 1); congruence. }
  destruct (Nat.eq_dec (length users) 1) as [Hu1 | Hu1].
  { right. split; [assumption|]. split; [assumption|].
    split; [right; left; assumption|].
    destruct (singleton_list users Hu1) as [u ->].
    destruct (forward_single_user_run self u items g Hv Hu Hi)
      as (ru & di & g1 & g2 & _ & _ & Hli & Hf).
    eexists _, _. split; [exact Hf|].
    rewrite finish_length. change (broadcast_length _ _) with (length items).
    rewrite zip_with_length; unfold sum_axis1; rewrite !length_map;
      congruence. }
  destruct (Nat.eq_dec (length items) 1) as [Hi1 | Hi1].
  { right. split; [assumption|]. split; [assumption|].
    split; [right; right; assumption|].
    destruct (singleton_list items Hi1) as [i ->].
    destruct (forward_single_item_run self users i g Hv Hu Hi)
      as (du & ri & g1 & g2 & _ & _ & Hlu & Hf).
    eexists _, _. split; [exact Hf|].
    rewrite finish_length, length_map.
    rewrite zip_with_length; unfold sum_axis1; rewrite !length_map;
      try congruence.
    unfold broadcast_length.
    destruct (Nat.eqb_spec (length users) 1); congruence. }
  left. split; [assumption|]. split; [assumption|].
  split; [unfold broadcastable; tauto|].
  destruct (BroadcastFacts.forward_stages self users items g Hv Hu Hi)
    as (du & di & g1 & g2 & _ & _ & Hlu & Hli & _ & _ & Hf).
  rewrite Hf. unfold combine_scores.
  rewrite BroadcastFacts.mul_incompatible by congruence.
  reflexivity.
Qed.

End SingleFacts.

(** ** When [forward] returns and when it raises *)

Module OutcomeSpec.

Import Torch MatrixFactorizationModel.

(** X1.  On a valid model, [forward] raises the indexing error exactly when
    some user index or some item index lies outside its table, whatever the
    two batch lengths. *)
Theorem forward_index_error_iff (self : t) (users items : list Z) (g : rng) :
  valid_model self ->
  (forward self users items g = Raise IndexError <->
   some_invalid (num_users (hparams self)) users \/
   some_invalid (num_items (hparams self)) items).
Proof.
  intros Hv.
  destruct (SingleFacts.forward_outcome self users items g Hv)
    as [[Hbad Hf] | [(Hu & Hi & Hnb & Hf) | (Hu & Hi & Hb & preds & g' & Hf & _)]].
  - split; intros; assumption.
  - split; [rewrite Hf; discriminate|].
    intros [Hbad | Hbad];
      apply BroadcastFacts.some_invalid_not_valid in Hbad; contradiction.
  - split; [rewrite Hf; discriminate|].
    intros [Hbad | Hbad];
      apply BroadcastFacts.some_invalid_not_valid in Hbad; contradiction.
Qed.

Lemma forward_index_error_iff_witness :
  forward Example.model [5%Z] [0%Z] Example.g = Raise IndexError <->
  some_invalid (num_users (hparams Example.model)) [5%Z] \/
  some_invalid (num_items (hparams Example.model)) [0%Z].
Proof.
  apply (forward_index_error_iff Example.model [5%Z] [0%Z] Example.g).
  exact ExampleFacts.model_valid.
Defined.

(** X2.  On a valid model, [forward] raises the shape error exactly when
    every index is valid and the two batch lengths differ with neither of
    them equal to one. *)
Theorem forward_shape_error_iff (self : t) (users items : list Z) (g : rng) :
  valid_model self ->
  (forward self users items g = Raise RuntimeError <->
   valid_users self users /\ valid_items self items /\
   ~ broadcastable (length users) (length items)).
Proof.
  intros Hv.
  destruct (SingleFacts.forward_outcome self users items g Hv)
    as [[Hbad Hf] | [(Hu & Hi & Hnb & Hf) | (Hu & Hi & Hb & preds & g' & Hf & _)]].
  - split; [rewrite Hf; discriminate|].
    intros (Hu & Hi & _).
    destruct Hbad as [Hbad | Hbad];
      apply BroadcastFacts.some_invalid_not_valid in Hbad; contradiction.
  - split; intros; auto.
  - split; [rewrite Hf; discriminate|].
    intros (_ & _ & Hnb). contradiction.
Qed.

Lemma forward_shape_error_iff_witness :
  forward Example.model [0%Z; 1%Z] [0%Z; 1%Z; 2%Z] Example.g
    = Raise RuntimeError <->
  valid_users Example.model [0%Z; 1%Z] /\
  valid_items Example.model [0%Z; 1%Z; 2%Z] /\
  ~ broadcastable 2 3.
Proof.
  apply (forward_shape_error_iff Example.model [0%Z; 1%Z] [0%Z; 1%Z; 2%Z]
           Example.g).
  exact ExampleFacts.model_valid.
Defined.

(** X3.  On a valid model, [forward] returns exactly when every index is
    valid and the two batch lengths are equal or one of them is one; the
    tensor it returns then has the length of the users batch, or that of the
    items batch when there is a single user. *)
Theorem forward_returns_iff (self : t) (users items : list Z) (g : rng) :
  valid_model self ->
  ((exists preds g', forward self users items g = Ok (preds, g')) <->
   valid_users self users /\ valid_items self items /\
   broadcastable (length users) (length items)) /\
  (forall preds g',
     forward self users items g = Ok (preds, g') ->
     length preds = broadcast_length (length users) (length items)).
Proof.
  intros Hv.
  destruct (SingleFacts.forward_outcome self users items g Hv)
    as [[Hbad Hf] | [(Hu & Hi & Hnb & Hf) | (Hu & Hi & Hb & preds & g' & Hf & Hl)]].
  - split.
    + split.
      * intros (preds & g' & H). rewrite Hf in H. discriminate.
      * intros (Hu & Hi & _).
        destruct Hbad as [Hbad | Hbad];
          apply BroadcastFacts.some_invalid_not_valid in Hbad; contradiction.
    + intros preds g' H. rewrite Hf in H. discriminate.
  - split.
    + split.
      * intros (preds & g' & H). rewrite Hf in H. discriminate.
      * intros (_ & _ & Hb). contradiction.
    + intros preds g' H. rewrite Hf in H. discriminate.
  - split.
    + split; [auto|]. intros _. exists preds, g'. assumption.
    + intros preds' g'' H. rewrite Hf in H. injection H as <- <-. assumption.
Qed.

Lemma forward_returns_iff_witness :
  ((exists preds g',
      forward Example.model [1%Z] [0%Z; 1%Z; 2%Z] Example.g = Ok (preds, g')) <->
   valid_users Example.model [1%Z] /\
   valid_items Example.model [0%Z; 1%Z; 2%Z] /\
   broadcastable 1 3) /\
  (forall preds g',
     forward Example.model [1%Z] [0%Z; 1%Z; 2%Z] Example.g = Ok (preds, g') ->
     length preds = broadcast_length 1 3).
Proof.
  apply (forward_returns_iff Example.model [1%Z] [0%Z; 1%Z; 2%Z] Example.g).
  exact ExampleFacts.model_valid.
Defined.

(** X4.  On a valid model, a single valid user index [u] against a batch of
    valid item indices gives one prediction per item: before the configured
    range is applied, the score at position [k], holding item [i], is the sum
    over the embedding dimension of the one dropout output for the user row
    times row [k] of the dropout output for the item rows, plus the bias of
    [u], plus the bias of [i]. *)
Theorem forward_single_user (self : t) (u : Z) (items : list Z) (g : rng) :
  valid_model self -> valid_users self [u] -> valid_items self items ->
  exists dropped_user dropped_items g1 g2 raw,
    Torch.dropout (dropout self) (training self)
      (rows_at (user_embeddings self) [u]) g = Ok ([dropped_user], g1) /\
    Torch.dropout (dropout self) (training self)
      (rows_at (item_embeddings self) items) g1 = Ok (dropped_items, g2) /\
    forward self [u] items g = Ok (finish (y_range (hparams self)) raw, g2) /\
    length raw = length items /\
    forall k i,
      nth_error items k = Some i ->
      nth_error raw k =
        Some (sum_row (zip_with Rmult dropped_user (nth k dropped_items []))
              + bias_at (user_biases self) u
              + bias_at (item_biases self) i).
Proof.
  intros Hv Hu Hi.
  destruct (SingleFacts.forward_single_user_run self u items g Hv Hu Hi)
    as (ru & di & g1 & g2 & Hdu & Hdi & Hli & Hf).
  eexists ru, di, g1, g2, _.
  split; [exact Hdu|]. split; [exact Hdi|]. split; [exact Hf|].
  split.
  - rewrite zip_with_length; unfold sum_axis1; rewrite !length_map; congruence.
  - intros k i Hk.
    assert (Hlt : (k < length di)%nat)
      by (rewrite Hli; apply nth_error_Some; congruence).
    apply nth_error_zip_with.
    + apply (map_nth_error (fun x => x + bias_at (user_biases self) u)).
      unfold sum_axis1. apply (map_nth_error sum_row).
      apply (map_nth_error (zip_with Rmult ru)).
      apply nth_error_nth'. assumption.
    + apply map_nth_error. assumption.
Qed.

Lemma forward_single_user_witness :
  exists dropped_user dropped_items g1 g2 raw,
    Torch.dropout (dropout Example.model) (training Example.model)
      (rows_at (user_embeddings Example.model) [1%Z]) Example.g
      = Ok ([dropped_user], g1) /\
    Torch.dropout (dropout Example.model) (training Example.model)
      (rows_at (item_embeddings Example.model) Example.items) g1
      = Ok (dropped_items, g2) /\
    forward Example.model [1%Z] Example.items Example.g
      = Ok (finish (y_range (hparams Example.model)) raw, g2) /\
    length raw = length Example.items /\
    forall k i,
      nth_error Example.items k = Some i ->
      nth_error raw k =
        Some (sum_row (zip_with Rmult dropped_user (nth k dropped_items []))
              + bias_at (user_biases Example.model) 1
              + bias_at (item_biases Example.model) i).
Proof.
  apply (forward_single_user Example.model 1%Z Example.items Example.g).
  - exact ExampleFacts.model_valid.
  - repeat constructor; unfold valid_index; simpl; lia.
  - exact ExampleFacts.items_valid.
Defined.

(** X5.  On a valid model, a batch of valid user indices against a single
    valid item index [i] gives one prediction per user: before the
    configured range is applied, the score at position [k], holding user
    [u], is the sum over the embedding dimension of row [k] of the dropout
    output for the user rows times the one dropout output for the item row,
    plus the bias of [u], plus the bias of [i]. *)
Theorem forward_single_item (self : t) (users : list Z) (i : Z) (g : rng) :
  valid_model self -> valid_users self users -> valid_items self [i] ->
  exists dropped_users dropped_item g1 g2 raw,
    Torch.dropout (dropout self) (training self)
      (rows_at (user_embeddings self) users) g = Ok (dropped_users, g1) /\
    Torch.dropout (dropout self) (training self)
      (rows_at (item_embeddings self) [i]) g1 = Ok ([dropped_item], g2) /\
    forward self users [i] g = Ok (finish (y_range (hparams self)) raw, g2) /\
    length raw = length users /\
    forall k u,
      nth_error users k = Some u ->
      nth_error raw k =
        Some (sum_row (zip_with Rmult (nth k dropped_users []) dropped_item)
              + bias_at (user_biases self) u
              + bias_at (item_biases self) i).
Proof.
  intros Hv Hu Hi.
  destruct (SingleFacts.forward_single_item_run self users i g Hv Hu Hi)
    as (du & ri & g1 & g2 & Hdu & Hdi & Hlu & Hf).
  eexists du, ri, g1, g2, _.
  split; [exact Hdu|]. split; [exact Hdi|]. split; [exact Hf|].
  split.
  - rewrite length_map.
    rewrite zip_with_length; unfold sum_axis1; rewrite !length_map; congruence.
  - intros k u Hk.
    assert (Hlt : (k < length du)%nat)
      by (rewrite Hlu; apply nth_error_Some; congruence).
    apply (map_nth_error (fun x => x + bias_at (item_biases self) i)).
    apply nth_error_zip_with.
    + unfold sum_axis1. apply (map_nth_error sum_row).
      apply (map_nth_error (fun r => zip_with Rmult r ri)).
      apply nth_error_nth'. assumption.
    + apply map_nth_error. assumption.
Qed.

Lemma forward_single_item_witness :
  exists dropped_users dropped_item g1 g2 raw,
    Torch.dropout (dropout Example.model) (training Example.model)
      (rows_at (user_embeddings Example.model) Example.users) Example.g
      = Ok (dropped_users, g1) /\
    Torch.dropout (dropout Example.model) (training Example.model)
      (rows_at (item_embeddings Example.model) [2%Z]) g1
      = Ok ([dropped_item], g2) /\
    forward Example.model Example.users [2%Z] Example.g
      = Ok (finish (y_range (hparams Example.model)) raw, g2) /\
    length raw = length Example.users /\
    forall k u,
      nth_error Example.users k = Some u ->
      nth_error raw k =
        Some (sum_row (zip_with Rmult (nth k dropped_users []) dropped_item)
              + bias_at (user_biases Example.model) u
              + bias_at (item_biases Example.model) 2).
Proof.
  apply (forward_single_item Example.model Example.users 2%Z Example.g).
  - exact ExampleFacts.model_valid.
  - exact ExampleFacts.users_valid.
  - repeat constructor; unfold valid_index; simpl; lia.
Defined.

End OutcomeSpec.

(** ** Batches at inference *)

Module BatchSpec.

Import Torch MatrixFactorizationModel.

Lemma zip_with_app {A B C : Type} (f : A -> B -> C)
    (xs1 xs2 : list A) (ys1 ys2 : list B) :
  length xs1 = length ys1 ->
  zip_with f (xs1 ++ xs2) (ys1 ++ ys2)
  = zip_with f xs1 ys1 ++ zip_with f xs2 ys2.
Proof.
  revert ys1; induction xs1 as [|x xs1 IH]; intros [|y ys1] H;
    simpl in *; try discriminate; [reflexivity|].
  rewrite IH by congruence. reflexivity.
Qed.

Lemma finish_app (range : option (R * R)) (a b : tensor1) :
  finish range (a ++ b) = finish range a ++ finish range b.
Proof.
  destruct range as [[lo hi]|]; simpl; [|reflexivity].
  rewrite !RangeFacts.apply_y_range_squash. apply map_app.
Qed.

Lemma raw_scores_app (self : t) (users1 users2 items1 items2 : list Z) :
  length users1 = length items1 ->
  raw_scores self (users1 ++ users2) (items1 ++ items2)
    (rows_at (user_embeddings self) (users1 ++ users2))
    (rows_at (item_embeddings self) (items1 ++ items2))
  = raw_scores self users1 items1
      (rows_at (user_embeddings self) users1)
      (rows_at (item_embeddings self) items1)
    ++ raw_scores self users2 items2
         (rows_at (user_embeddings self) users2)
         (rows_at (item_embeddings self) items2).
Proof.
  intros Hlen. unfold raw_scores, rows_at, sum_axis1.
  rewrite !map_app.
  rewrite (zip_with_app (zip_with Rmult)) by (rewrite !length_map; assumption).
  rewrite map_app.
  rewrite (zip_with_app Rplus).
  2:{ rewrite !length_map, zip_with_length; rewrite !length_map; congruence. }
  rewrite (zip_with_app Rplus).
  2:{ rewrite zip_with_length.
      - rewrite !length_map, zip_with_length; rewrite !length_map; congruence.
      - rewrite !length_map, zip_with_length; rewrite !length_map; congruence. }
  reflexivity.
Qed.

(** X6.  On a valid model with dropout disabled (probability zero, or
    evaluation mode), scoring two batches one after the other and scoring
    their concatenation give the same predictions: those of the
    concatenated batch are those of the first batch followed by those of the
    second, and no draw is read. *)
Theorem forward_append (self : t) (users1 items1 users2 items2 : list Z) (g : rng) :
  valid_model self -> dropout self = 0 \/ training self = false ->
  valid_users self users1 -> valid_items self items1 ->
  valid_users self users2 -> valid_items self items2 ->
  length users1 = length items1 -> length users2 = length items2 ->
  exists preds1 preds2,
    forward self users1 items1 g = Ok (preds1, g) /\
    forward self users2 items2 g = Ok (preds2, g) /\
    forward self (users1 ++ users2) (items1 ++ items2) g
      = Ok (preds1 ++ preds2, g).
Proof.
  intros Hv Hoff Hu1 Hi1 Hu2 Hi2 Hl1 Hl2.
  eexists _, _.
  split; [apply ForwardFacts.forward_dropout_disabled; assumption|].
  split; [apply ForwardFacts.forward_dropout_disabled; assumption|].
  rewrite ForwardFacts.forward_dropout_disabled; try assumption.
  - rewrite raw_scores_app by assumption. rewrite finish_app. reflexivity.
  - apply Forall_app; split; assumption.
  - apply Forall_app; split; assumption.
  - rewrite !length_app. congruence.
Qed.

Lemma forward_append_witness :
  exists preds1 preds2,
    forward (eval Example.rated) [0%Z] [2%Z] Example.g = Ok (preds1, Example.g) /\
    forward (eval Example.rated) [1%Z] [0%Z] Example.g = Ok (preds2, Example.g) /\
    forward (eval Example.rated) ([0%Z] ++ [1%Z]) ([2%Z] ++ [0%Z]) Example.g
      = Ok (preds1 ++ preds2, Example.g).
Proof.
  apply (forward_append (eval Example.rated) [0%Z] [2%Z] [1%Z] [0%Z] Example.g).
  - destruct ExampleFacts.rated_valid; constructor; assumption.
  - right; reflexivity.
  - repeat constructor; unfold valid_index; simpl; lia.
  - repeat constructor; unfold valid_index; simpl; lia.
  - repeat constructor; unfold valid_index; simpl; lia.
  - repeat constructor; unfold valid_index; simpl; lia.
  - reflexivity.
  - reflexivity.
Defined.

End BatchSpec.

(** ** More on the output range *)

Module RangeSpec.

Import Torch MatrixFactorizationModel.






End RangeSpec.

(** ** More on setup *)

Module SetupMore.

Import Torch MatrixFactorizationModel.

Lemma ZeroEmbedding_all_zero (n d : nat) : all_zero (Base.ZeroEmbedding n d).
Proof.
  destruct (SetupSpec.ZeroEmbedding_rows n d) as [_ H].
  unfold all_zero. eapply Forall_impl; [|exact H]. intros row [_ Hz]; exact Hz.
Qed.

Lemma ScaledEmbedding_row (n d : nat) (init : nat -> nat -> R) (i : Z) :
  valid_index n i ->
  row_at (Base.ScaledEmbedding n d init) i = map (init (Z.to_nat i)) (seq 0 d).
Proof.
  intros Hi. unfold valid_index in Hi. unfold row_at, Base.ScaledEmbedding.
  apply nth_error_nth.
  apply (map_nth_error (fun r => map (init r) (seq 0 d))).
  rewrite nth_error_nth' with (d := O) by (rewrite length_seq; lia).
  rewrite seq_nth by lia. reflexivity.
Qed.

(** X12.  A model fresh from setup, with no output range and with dropout
    disabled (probability zero, or not in training mode), scores a batch of
    valid indices of equal length by the initial embeddings alone: the
    prediction for the pair [(u, i)] is the dot product of the initial draws
    of user row [u] and item row [i], the zero biases adding nothing. *)
Theorem setup_then_forward (hp : HParams)
    (init_users init_items : nat -> nat -> R) (tr : bool)
    (users items : list Z) (g : rng) :
  0 <= dropout_p hp <= 1 -> y_range hp = None ->
  dropout_p hp = 0 \/ tr = false ->
  Forall (valid_index (num_users hp)) users ->
  Forall (valid_index (num_items hp)) items ->
  length users = length items ->
  exists self preds,
    _setup_model hp init_users init_items tr = Ok self /\
    forward self users items g = Ok (preds, g) /\
    forall k u i,
      nth_error users k = Some u -> nth_error items k = Some i ->
      nth_error preds k =
        Some (dot (map (init_users (Z.to_nat u)) (seq 0 (embedding_dim hp)))
                  (map (init_items (Z.to_nat i)) (seq 0 (embedding_dim hp)))).
Proof.
  intros Hp Hr Hoff Hu Hi Hlen.
  destruct (SetupSpec.setup_valid hp init_users init_items tr Hp)
    as (self & Hsetup & Hhp & Htr & Hv).
  exists self.
  assert (Htables :
            user_biases self = Base.ZeroEmbedding (num_users hp) 1 /\
            item_biases self = Base.ZeroEmbedding (num_items hp) 1 /\
            user_embeddings self
              = Base.ScaledEmbedding (num_users hp) (embedding_dim hp) init_users /\
            item_embeddings self
              = Base.ScaledEmbedding (num_items hp) (embedding_dim hp) init_items /\
            dropout self = dropout_p hp).
  { revert Hsetup. unfold _setup_model.
    rewrite (SetupSpec.nn_Dropout_accepts _ Hp); simpl.
    intros H; injection H as <-. simpl. repeat split; reflexivity. }
  destruct Htables as (Hub & Hib & Hue & Hie & Hd).
  assert (Hoff' : dropout self = 0 \/ training self = false).
  { destruct Hoff as [H | H]; [left; congruence | right; congruence]. }
  assert (Hu' : valid_users self users) by (unfold valid_users; rewrite Hhp; exact Hu).
  assert (Hi' : valid_items self items) by (unfold valid_items; rewrite Hhp; exact Hi).
  rewrite (ForwardFacts.forward_dropout_disabled self users items g Hv Hoff'
             Hu' Hi' Hlen).
  rewrite Hhp, Hr; simpl.
  eexists; split; [exact Hsetup|]. split; [reflexivity|].
  intros k u i Hku Hki.
  rewrite (ForwardFacts.raw_scores_nth self users items _ _ k u i
             (row_at (user_embeddings self) u)
             (row_at (item_embeddings self) i)); try assumption.
  - rewrite Hub, Hib, Hue, Hie.
    rewrite !ForwardFacts.bias_at_zero by apply ZeroEmbedding_all_zero.
    rewrite !ScaledEmbedding_row.
    + unfold dot. f_equal. ring.
    + rewrite Forall_forall in Hi. apply Hi. eapply nth_error_In; eauto.
    + rewrite Forall_forall in Hu. apply Hu. eapply nth_error_In; eauto.
  - unfold rows_at. apply map_nth_error; assumption.
  - unfold rows_at. apply map_nth_error; assumption.
Qed.

Lemma setup_then_forward_witness :
  exists self preds,
    _setup_model (mk_hparams 2 3 2 (1 / 2) false None)
      (fun r c => INR (r + c)) (fun r c => INR (r * c)) false = Ok self /\
    forward self Example.users Example.items Example.g = Ok (preds, Example.g) /\
    forall k u i,
      nth_error Example.users k = Some u -> nth_error Example.items k = Some i ->
      nth_error preds k =
        Some (dot (map (fun c => INR (Z.to_nat u + c)) (seq 0 2))
                  (map (fun c => INR (Z.to_nat i * c)) (seq 0 2))).
Proof.
  apply (setup_then_forward (mk_hparams 2 3 2 (1 / 2) false None)
           (fun r c => INR (r + c)) (fun r c => INR (r * c)) false
           Example.users Example.items Example.g).
  - simpl; lra.
  - reflexivity.
  - right; reflexivity.
  - exact ExampleFacts.users_valid.
  - exact ExampleFacts.items_valid.
  - reflexivity.
Defined.

End SetupMore.

(** ** Dropout in training mode *)

Module TrainingSpec.

Import Torch MatrixFactorizationModel.

Lemma mask_row_succ (g : rng) (start d : nat) :
  mask_row g start (S d) = draws g start :: mask_row g (S start) d.
Proof.
  unfold mask_row. simpl. rewrite Nat.add_0_r. f_equal.
  rewrite <- seq_shift, map_map. apply map_ext.
  intros j. f_equal. lia.
Qed.

Lemma sample_row_spec (d : nat) (g : rng) :
  sample_row d g = (mask_row g (pos g) d, mk_rng (draws g) (pos g + d)).
Proof.
  revert g; induction d as [|d IH]; intros g.
  - destruct g as [dr p]; simpl. rewrite Nat.add_0_r. reflexivity.
  - simpl. rewrite IH; simpl. rewrite mask_row_succ.
    f_equal. f_equal. lia.
Qed.

(** The noise of a dropout call on a table of rows of width [d]: row [k]
    reads the [d] draws from position [pos g + k * d] on, and the call
    leaves the position after the last row. *)
Lemma sample_like_spec (d : nat) (table : tensor2) (g : rng) :
  Forall (fun row => length row = d) table ->
  sample_like table g =
    (map (fun k => mask_row g (pos g + k * d) d) (seq 0 (length table)),
     mk_rng (draws g) (pos g + length table * d)).
Proof.
  intros H; revert g. induction H as [|row table Hrow _ IH]; intros g.
  - destruct g as [dr p]; simpl. rewrite Nat.add_0_r. reflexivity.
  - simpl. rewrite sample_row_spec, Hrow. rewrite IH; simpl.
    f_equal.
    + f_equal; [f_equal; lia|].
      rewrite <- seq_shift, map_map. apply map_ext.
      intros k. unfold mask_row; simpl.
      apply map_ext. intros j. f_equal. lia.
    + f_equal. lia.
Qed.

Lemma drop_product (p : R) (a b : list R) (ka kb : list bool) :
  p <> 1 ->
  zip_with Rmult (zip_with (drop_elem p) a ka) (zip_with (drop_elem p) b kb)
  = zip_with Rmult (zip_with Rmult a b) (zip_with (keep_both p) ka kb).
Proof.
  intros Hp. revert b ka kb.
  induction a as [|x a IH]; intros [|y b] [|u ka] [|v kb]; simpl;
    try reflexivity.
  rewrite IH. f_equal.
  unfold drop_elem, keep_both. destruct u, v; simpl; field; lra.
Qed.

Lemma nth_seq_map {A : Type} (f : nat -> A) (n k : nat) :
  (k < n)%nat -> nth_error (map f (seq 0 n)) k = Some (f k).
Proof.
  intros Hk. apply map_nth_error.
  rewrite nth_error_nth' with (d := O) by (rewrite length_seq; assumption).
  rewrite seq_nth by assumption. reflexivity.
Qed.

(** X13.  In training mode with a dropout probability strictly between zero
    and one, [forward] on a valid batch of [n] pairs reads [2 * n * d] draws,
    [d] being the embedding width: those of the user rows first, row after
    row, then those of the item rows.  Before the configured range is
    applied, a coordinate of the pair at position [k] adds to the score only
    when both its user draw and its item draw keep it, and then as the
    product of the two embedding entries divided by [(1 - p)] squared; the
    two biases are added as they are. *)
Theorem training_scores (self : t) (users items : list Z) (g : rng) :
  valid_model self -> training self = true -> 0 < dropout self < 1 ->
  valid_users self users -> valid_items self items ->
  length users = length items ->
  exists raw,
    forward self users items g =
      Ok (finish (y_range (hparams self)) raw,
          mk_rng (draws g)
            (pos g + 2 * length users * embedding_dim (hparams self))) /\
    length raw = length users /\
    forall k u i,
      nth_error users k = Some u -> nth_error items k = Some i ->
      nth_error raw k =
        Some (sum_row
                (zip_with Rmult
                   (zip_with Rmult (row_at (user_embeddings self) u)
                                   (row_at (item_embeddings self) i))
                   (zip_with (keep_both (dropout self))
                      (mask_row g
                         (pos g + k * embedding_dim (hparams self))
                         (embedding_dim (hparams self)))
                      (mask_row g
                         (pos g
                          + length users * embedding_dim (hparams self)
                          + k * embedding_dim (hparams self))
                         (embedding_dim (hparams self)))))
              + bias_at (user_biases self) u
              + bias_at (item_biases self) i).
Proof.
  intros Hv Htr Hp Hu Hi Hlen.
  set (d := embedding_dim (hparams self)).
  destruct (ForwardFacts.forward_pairs self users items g Hv Hu Hi Hlen)
    as (du & di & g1 & g2 & raw & Hdu & Hdi & Hf & Hraw & Hk).
  assert (Hwu : Forall (fun row => length row = d)
                  (rows_at (user_embeddings self) users)).
  { destruct Hv as [[Hl Hw] _ _ _ _].
    eapply ForwardFacts.rows_at_width; eauto. }
  assert (Hwi : Forall (fun row => length row = d)
                  (rows_at (item_embeddings self) items)).
  { destruct Hv as [_ [Hl Hw] _ _ _].
    eapply ForwardFacts.rows_at_width; eauto. }
  rewrite Htr in Hdu, Hdi.
  rewrite ExampleRun.dropout_training in Hdu by assumption.
  rewrite (sample_like_spec d _ _ Hwu) in Hdu. simpl in Hdu.
  injection Hdu as <- <-.
  rewrite ExampleRun.dropout_training in Hdi by assumption.
  rewrite (sample_like_spec d _ _ Hwi) in Hdi. simpl in Hdi.
  injection Hdi as <- <-.
  unfold rows_at in Hf. rewrite !length_map in Hf.
  exists raw. split; [|split; [assumption|]].
  - rewrite Hf. f_equal. f_equal. f_equal. rewrite <- Hlen. lia.
  - intros k u i Hku Hki.
    assert (Hlt : (k < length users)%nat)
      by (apply nth_error_Some; congruence).
    rewrite (Hk k u i Hku Hki). f_equal. f_equal. f_equal. f_equal.
    unfold rows_at. rewrite !length_map.
    erewrite (nth_error_nth (zip_with _ (map _ users) _)).
    2:{ apply nth_error_zip_with.
        - apply map_nth_error. exact Hku.
        - apply (nth_seq_map (fun k => mask_row g (pos g + k * d) d)).
          assumption. }
    erewrite (nth_error_nth (zip_with _ (map _ items) _)).
    2:{ apply nth_error_zip_with.
        - apply map_nth_error. exact Hki.
        - apply (nth_seq_map
                   (fun k => mask_row (mk_rng (draws g)
                                         (pos g + length users * d))
                               (pos g + length users * d + k * d) d)).
          rewrite <- Hlen. assumption. }
    rewrite drop_product by lra. reflexivity.
Qed.

Lemma training_scores_witness :
  exists raw,
    forward Example.model Example.users Example.items Example.g =
      Ok (finish (y_range (hparams Example.model)) raw,
          mk_rng (draws Example.g)
            (pos Example.g
             + 2 * length Example.users * embedding_dim (hparams Example.model))) /\
    length raw = length Example.users /\
    forall k u i,
      nth_error Example.users k = Some u -> nth_error Example.items k = Some i ->
      nth_error raw k =
        Some (sum_row
                (zip_with Rmult
                   (zip_with Rmult (row_at (user_embeddings Example.model) u)
                                   (row_at (item_embeddings Example.model) i))
                   (zip_with (keep_both (dropout Example.model))
                      (mask_row Example.g
                         (pos Example.g
                          + k * embedding_dim (hparams Example.model))
                         (embedding_dim (hparams Example.model)))
                      (mask_row Example.g
                         (pos Example.g
                          + length Example.users
                            * embedding_dim (hparams Example.model)
                          + k * embedding_dim (hparams Example.model))
                         (embedding_dim (hparams Example.model)))))
              + bias_at (user_biases Example.model) u
              + bias_at (item_biases Example.model) i).
Proof.
  apply (training_scores Example.model Example.users Example.items Example.g).
  - exact ExampleFacts.model_valid.
  - reflexivity.
  - simpl; lra.
  - exact ExampleFacts.users_valid.
  - exact ExampleFacts.items_valid.
  - reflexivity.
Defined.

End TrainingSpec.

(** ** One user against every item *)

Module RepeatSpec.

Import Torch MatrixFactorizationModel.

Lemma raw_scores_repeat (self : t) (u : Z) (items : list Z) :
  raw_scores self (repeat u (length items)) items
    (rows_at (user_embeddings self) (repeat u (length items)))
    (rows_at (item_embeddings self) items)
  = zip_with Rplus
      (map (fun x => x + bias_at (user_biases self) u)
         (sum_axis1
            (map (zip_with Rmult (row_at (user_embeddings self) u))
               (rows_at (item_embeddings self) items))))
      (map (bias_at (item_biases self)) items).
Proof.
  unfold raw_scores, rows_at, sum_axis1.
  induction items as [|i items IH]; simpl; [reflexivity|].
  f_equal. exact IH.
Qed.

(** X14.  On a valid model with dropout disabled (probability zero, or
    evaluation mode), a single user index against a batch of item indices
    gives the predictions of the batch in which that user index is repeated
    once per item. *)
Theorem single_user_as_repeated (self : t) (u : Z) (items : list Z) (g : rng) :
  valid_model self -> dropout self = 0 \/ training self = false ->
  valid_users self [u] -> valid_items self items ->
  exists preds,
    length preds = length items /\
    forward self [u] items g = Ok (preds, g) /\
    forward self (repeat u (length items)) items g = Ok (preds, g).
Proof.
  intros Hv Hoff Hu Hi.
  assert (Hus : valid_users self (repeat u (length items))).
  { unfold valid_users. apply Forall_forall. intros x Hx.
    apply repeat_spec in Hx. subst x. inversion Hu; assumption. }
  destruct (SingleFacts.forward_single_user_run self u items g Hv Hu Hi)
    as (ru & di & g1 & g2 & Hdu & Hdi & Hli & Hf).
  rewrite TorchFacts.dropout_disabled in Hdu by (try apply Hv; assumption).
  injection Hdu as <- <-.
  rewrite TorchFacts.dropout_disabled in Hdi by (try apply Hv; assumption).
  injection Hdi as <- <-.
  eexists. split; [|split; [exact Hf|]].
  - rewrite SingleFacts.finish_length.
    rewrite zip_with_length; unfold sum_axis1, rows_at; rewrite !length_map;
      reflexivity.
  - rewrite ForwardFacts.forward_dropout_disabled; try assumption.
    + rewrite raw_scores_repeat. reflexivity.
    + apply repeat_length.
Qed.

Lemma single_user_as_repeated_witness :
  exists preds,
    length preds = length [0%Z; 1%Z; 2%Z] /\
    forward (eval Example.model) [1%Z] [0%Z; 1%Z; 2%Z] Example.g
      = Ok (preds, Example.g) /\
    forward (eval Example.model) (repeat 1%Z (length [0%Z; 1%Z; 2%Z]))
      [0%Z; 1%Z; 2%Z] Example.g = Ok (preds, Example.g).
Proof.
  apply (single_user_as_repeated (eval Example.model) 1%Z [0%Z; 1%Z; 2%Z]
           Example.g).
  - destruct ExampleFacts.model_valid; constructor; assumption.
  - right; reflexivity.
  - repeat constructor; unfold valid_index; simpl; lia.
  - repeat constructor; unfold valid_index; simpl; lia.
Defined.

End RepeatSpec.

(** ** Dropout with probability one *)

Module CertainDropoutSpec.

Import Torch MatrixFactorizationModel.

Lemma dropout_certain (table : tensor2) (g : rng) :
  Torch.dropout 1 true table g = Ok (map (map (fun x => x * 0)) table, g).
Proof.
  unfold Torch.dropout.
  destruct (Rlt_dec 1 0); [lra|].
  destruct (Rlt_dec 1 1); [lra|]. simpl.
  destruct (Req_dec_T 1 0); [lra|].
  destruct (Req_dec_T 1 1); [reflexivity | congruence].
Qed.

Lemma zeroed_rows (table : tensor2) (k : nat) :
  Forall (fun x => x = 0) (nth k (map (map (fun x => x * 0)) table) []).
Proof.
  apply ForwardFacts.all_zero_nth. unfold all_zero.
  apply Forall_map, Forall_forall. intros row _.
  apply Forall_map, Forall_forall. intros x _. ring.
Qed.

(** X15.  In training mode with dropout probability one, every embedding
    entry is dropped and no draw is read: on a valid batch, the score of
    each pair before the configured range is applied is the user bias plus
    the item bias. *)
Theorem certain_dropout_scores (self : t) (users items : list Z) (g : rng) :
  valid_model self -> training self = true -> dropout self = 1 ->
  valid_users self users -> valid_items self items ->
  length users = length items ->
  exists raw,
    forward self users items g = Ok (finish (y_range (hparams self)) raw, g) /\
    length raw = length users /\
    forall k u i,
      nth_error users k = Some u -> nth_error items k = Some i ->
      nth_error raw k =
        Some (bias_at (user_biases self) u + bias_at (item_biases self) i).
Proof.
  intros Hv Htr Hp Hu Hi Hlen.
  destruct (ForwardFacts.forward_pairs self users items g Hv Hu Hi Hlen)
    as (du & di & g1 & g2 & raw & Hdu & Hdi & Hf & Hraw & Hk).
  rewrite Htr, Hp, dropout_certain in Hdu. injection Hdu as <- <-.
  rewrite Htr, Hp, dropout_certain in Hdi. injection Hdi as <- <-.
  exists raw. split; [exact Hf|]. split; [exact Hraw|].
  intros k u i Hku Hki.
  rewrite (Hk k u i Hku Hki).
  rewrite ForwardFacts.sum_row_zero_product by apply zeroed_rows.
  f_equal. ring.
Qed.

Lemma certain_dropout_scores_witness :
  exists raw,
    forward (mk_model Example.hp [[1 / 2]; [-1]] [[0]; [1]; [2]]
               [[1; 2]; [3; 4]] [[1; 0]; [0; 1]; [1; 1]] 1 true)
      Example.users Example.items Example.g
      = Ok (finish None raw, Example.g) /\
    length raw = length Example.users /\
    forall k u i,
      nth_error Example.users k = Some u -> nth_error Example.items k = Some i ->
      nth_error raw k =
        Some (bias_at [[1 / 2]; [-1]] u + bias_at [[0]; [1]; [2]] i).
Proof.
  apply (certain_dropout_scores
           (mk_model Example.hp [[1 / 2]; [-1]] [[0]; [1]; [2]]
              [[1; 2]; [3; 4]] [[1; 0]; [0; 1]; [1; 1]] 1 true)
           Example.users Example.items Example.g).
  - constructor; simpl; try (split; [reflexivity | repeat constructor]); lra.
  - reflexivity.
  - reflexivity.
  - exact ExampleFacts.users_valid.
  - exact ExampleFacts.items_valid.
  - reflexivity.
Defined.

End CertainDropoutSpec.
